(** * AS3 declaration synthesis of k8s-bigip-ctlr: pkg/agent/as3/as3Resource.go

    A shallow embedding of the TLS attachment stage
    ([processProfilesForAS3]), the WAF injection stage
    ([processF5ResourcesForAS3]) and the declaration assembly
    ([prepareAS3ResourceConfig]), followed by the properties the
    specification states about them.

    Conventions of the embedding.
    - A Go map that the code ranges over is given as the list of its entries
      in the order that run of the range statement visits them; Go leaves
      that order unspecified, so two runs over one map are two lists that are
      permutations of each other.
    - Rules are reached through pointers ([[]*as3Rule]) and are mutated in
      place, and the synthetic trailing rule is one object shared by both
      policies: rules live in a store indexed by pointer. Dereferencing a
      pointer outside the store stands for Go's nil dereference and makes the
      stage return [None].
    - Actions are reached through pointers too, but no action is written to
      after its creation, so they are kept by value.
    - The objects of the shared application are kept under their names: two
      names never denote the same object. *)

From stdpp Require Import base option list strings gmap.

Set Default Proof Using "Type".

(** ** Records of pkg/resource read by the pass *)
Module Resource.

(** The context of a profile is a string compared against the named constants
    [CustomProfileClient] and [CustomProfileServer]; every other value is
    kept with its text. *)
Inductive ProfileContext :=
  | CustomProfileClient
  | CustomProfileServer
  | CustomProfileOther (tag : string).

(** The resource kind of a frontend, compared against [ResourceTypeRoute]
    and [ResourceTypeIngress]. *)
Inductive ResourceType :=
  | ResourceTypeRoute
  | ResourceTypeIngress
  | ResourceTypeOther (tag : string).

(** The exposure of an additional resource, compared against [HTTP],
    [HTTPS] and [HTTPANDS]. *)
Inductive VirtualType :=
  | HTTP
  | HTTPS
  | HTTPANDS
  | VirtualOther (tag : nat).

#[global] Instance ProfileContext_eq_dec : EqDecision ProfileContext.
Proof. solve_decision. Defined.
#[global] Instance ResourceType_eq_dec : EqDecision ResourceType.
Proof. solve_decision. Defined.
#[global] Instance VirtualType_eq_dec : EqDecision VirtualType.
Proof. solve_decision. Defined.

(** An entry of the profile list of a virtual (Ingress-style frontends). *)
Module ProfileRef.
Record t := mk { Partition : string; Name : string; Context : ProfileContext }.
End ProfileRef.

(** The key of the [RouteProfs] map of a Route-style frontend. The source
    reads its [Context] only; [Name] and [Namespace] tell apart the keys of
    one context. *)
Module RouteKey.
Record t := mk { Name : string; Namespace : string; Context : ProfileContext }.
#[global] Instance eq_dec : EqDecision t.
Proof. solve_decision. Defined.
End RouteKey.

Module MetaData.
Record t := mk {
  ResourceType : ResourceType;
  (** [map[RouteKey]string], as visited by the range statement *)
  RouteProfs : list (RouteKey.t * string) }.
End MetaData.

Module Virtual.
Record t := mk { Profiles : list ProfileRef.t }.
End Virtual.

Module ResourceConfig.
Record t := mk { MetaData : MetaData.t; Virtual : Virtual.t }.
End ResourceConfig.

(** Modelled from the spec: the key of an exposure record, type [Record] of
    pkg/resource, whose declaration as3Resource.go only imports. The
    specification gives an exposure record an identifier that names a rule
    of a policy. *)
Module Record_.
Record t := mk { Identifier : string }.
#[global] Instance eq_dec : EqDecision t.
Proof. solve_decision. Defined.
End Record_.

Module F5Resources.
Record t := mk { Virtual : VirtualType }.
End F5Resources.

(** [InternalF5Resources] is [map[Record]F5Resources] and
    [InternalF5ResourcesGroup] is a map of those. *)
Definition InternalF5Resources := list (Record_.t * F5Resources.t).
Definition InternalF5ResourcesGroup := list (string * InternalF5Resources).

End Resource.

Import Resource.

(** ** The declaration objects of package as3 *)

Record as3ResourcePointer := { BigIP : string }.

(** The protocol of a Service object; the specification names two. *)
Inductive as3Protocol := ServiceHTTP | ServiceHTTPS.

Record as3Service := {
  Protocol : as3Protocol;
  ServerTLS : list as3ResourcePointer;
  ClientTLS : option as3ResourcePointer }.

Record as3Action := {
  Type_ : string;
  Event : string;
  Enabled : option bool }.

Record as3Rule := {
  Name : string;
  Actions : list as3Action }.

(** A pointer to a rule is its index in the rule store. *)
Abbreviation ptr := nat (only parsing).

Record as3EndpointPolicy := { Rules : list ptr }.

Inductive as3Object :=
  | ObjService (svc : as3Service)
  | ObjEndpointPolicy (ep : as3EndpointPolicy)
  | ObjOther (class : string).

(** What the pass logs: the warning of [processProfilesForAS3], and the
    diagnostic event that the specification gives to an exposure record
    naming a rule that is not there. *)
Inductive Diagnostic :=
  | UnsupportedResourceType (t : ResourceType)
  | RuleNotFound (rec : Record_.t).

(** The state one synthesis pass works on: the shared application
    ([as3Application], a map from names to objects), the store of rules and
    the diagnostics written so far. *)
Record PassState := {
  sharedApp : gmap string as3Object;
  ruleStore : list as3Rule;
  diagnostics : list Diagnostic }.

Record AS3Manager := {
  userAgent : string;
  (** [am.Resources.RsMap], as visited *)
  RsMap : list (string * ResourceConfig.t);
  (** [am.IntF5Res], as visited *)
  IntF5Res : InternalF5ResourcesGroup }.

(** What the pass uses and as3Resource.go does not define: the name
    formatter, the package variable [DEFAULT_PARTITION] and the stages that
    run before and between the two stages embedded here. *)
Record Env := {
  as3FormatedString : string → ResourceType → string;
  DEFAULT_PARTITION : string;
  processResourcesForAS3 : AS3Manager → PassState → PassState;
  processCustomProfilesForAS3 : AS3Manager → PassState → PassState;
  processIRulesForAS3 : AS3Manager → PassState → PassState;
  processDataGroupForAS3 : AS3Manager → PassState → PassState }.

(** ** TLS attachment *)
Module TLS.

(** Modelled from the spec: [updateVirtualToHTTPS], which as3Resource.go
    calls and does not define. "Any non-empty TLS attachment forces the
    frontend's protocol to HTTPS": the helper sets the protocol and nothing
    else. *)
Definition updateVirtualToHTTPS (svc : as3Service) : as3Service :=
  {| Protocol := ServiceHTTPS;
     ServerTLS := ServerTLS svc;
     ClientTLS := ClientTLS svc |}.

Definition setServerTLS (l : list as3ResourcePointer) (svc : as3Service) : as3Service :=
  {| Protocol := Protocol svc; ServerTLS := l; ClientTLS := ClientTLS svc |}.

Definition setClientTLS (p : as3ResourcePointer) (svc : as3Service) : as3Service :=
  {| Protocol := Protocol svc; ServerTLS := ServerTLS svc; ClientTLS := Some p |}.

(** [fmt.Sprintf("/%v/%v", profile.Partition, profile.Name)] *)
Definition profilePath (profile : ProfileRef.t) : string :=
  "/" +:+ ProfileRef.Partition profile +:+ "/" +:+ ProfileRef.Name profile.

(** One iteration of the loop of [processIngressTLSProfilesForAS3]; the
    first component is the local slice [serverTLS]. *)
Definition ingressStep (acc : list as3ResourcePointer * as3Service)
    (profile : ProfileRef.t) : list as3ResourcePointer * as3Service :=
  let '(serverTLS, svc) := acc in
  if decide (ProfileRef.Partition profile = "Common") then
    match ProfileRef.Context profile with
    | CustomProfileClient =>
        let rsPointer := {| BigIP := profilePath profile |} in
        let serverTLS := serverTLS ++ [rsPointer] in
        (serverTLS, updateVirtualToHTTPS (setServerTLS serverTLS svc))
    | CustomProfileServer =>
        (serverTLS,
         updateVirtualToHTTPS (setClientTLS {| BigIP := profilePath profile |} svc))
    | CustomProfileOther _ => (serverTLS, svc)
    end
  else (serverTLS, svc).

Definition processIngressTLSProfilesForAS3 (virtual : Virtual.t)
    (svc : as3Service) : as3Service :=
  snd (foldl ingressStep ([], svc) (Virtual.Profiles virtual)).

(** One iteration of the loop of [processRouteTLSProfilesForAS3]. *)
Definition routeStep (acc : list as3ResourcePointer * as3Service)
    (entry : RouteKey.t * string) : list as3ResourcePointer * as3Service :=
  let '(serverTLS, svc) := acc in
  let '(key, val) := entry in
  match RouteKey.Context key with
  | CustomProfileClient =>
      let rsPointer := {| BigIP := val |} in
      let serverTLS := serverTLS ++ [rsPointer] in
      (serverTLS, updateVirtualToHTTPS (setServerTLS serverTLS svc))
  | CustomProfileServer =>
      (serverTLS, updateVirtualToHTTPS (setClientTLS {| BigIP := val |} svc))
  | CustomProfileOther _ => (serverTLS, svc)
  end.

Definition processRouteTLSProfilesForAS3 (metadata : MetaData.t)
    (svc : as3Service) : as3Service :=
  snd (foldl routeStep ([], svc) (MetaData.RouteProfs metadata)).

Definition setSharedApp (app : gmap string as3Object) (st : PassState) : PassState :=
  {| sharedApp := app; ruleStore := ruleStore st; diagnostics := diagnostics st |}.

Definition logWarning (d : Diagnostic) (st : PassState) : PassState :=
  {| sharedApp := sharedApp st;
     ruleStore := ruleStore st;
     diagnostics := diagnostics st ++ [d] |}.

(** The name under which the stage looks for the Service of a frontend. *)
Definition serviceKey (env : Env) (svcName : string) (cfg : ResourceConfig.t) : string :=
  as3FormatedString env svcName (MetaData.ResourceType (ResourceConfig.MetaData cfg)).

(** The body of the loop of [processProfilesForAS3]. *)
Definition processFrontend (env : Env) (st : PassState)
    (frontend : string * ResourceConfig.t) : PassState :=
  let '(svcName, cfg) := frontend in
  let key := serviceKey env svcName cfg in
  match sharedApp st !! key with
  | Some (ObjService svc) =>
      match MetaData.ResourceType (ResourceConfig.MetaData cfg) with
      | ResourceTypeRoute =>
          let svc := processRouteTLSProfilesForAS3 (ResourceConfig.MetaData cfg) svc in
          setSharedApp (<[key := ObjService svc]> (sharedApp st)) st
      | ResourceTypeIngress =>
          let svc := processIngressTLSProfilesForAS3 (ResourceConfig.Virtual cfg) svc in
          setSharedApp (<[key := ObjService svc]> (sharedApp st)) st
      | ResourceTypeOther _ as t => logWarning (UnsupportedResourceType t) st
      end
  | _ => st
  end.

Definition processProfilesForAS3 (env : Env) (am : AS3Manager)
    (st : PassState) : PassState :=
  foldl (processFrontend env) st (RsMap am).

End TLS.

(** ** WAF injection *)
Module WAF.

Definition isWAFAction (action : as3Action) : bool :=
  bool_decide (Type_ action = "waf").

(** The inner loop of [addWAFDisableAction]: is some action of the rule of
    type "waf"? *)
Definition isWAFRule (rule : as3Rule) : bool :=
  existsb isWAFAction (Actions rule).

Definition wafDisableAction : as3Action :=
  {| Type_ := "waf"; Event := ""; Enabled := Some false |}.

Definition wafDropAction : as3Action :=
  {| Type_ := "drop"; Event := "request"; Enabled := None |}.

Definition wafDisableRule : as3Rule :=
  {| Name := "openshift_route_waf_disable";
     Actions := [wafDropAction; wafDisableAction] |}.

(** [rule.Actions = append(rule.Actions, action)] *)
Definition appendAction (action : as3Action) (rule : as3Rule) : as3Rule :=
  {| Name := Name rule; Actions := Actions rule ++ [action] |}.

(** The closure [addWAFDisableAction], over the rule pointers of the policy. *)
Fixpoint addWAFDisableActionRules (rs : list ptr) (store : list as3Rule)
    : option (list as3Rule) :=
  match rs with
  | [] => Some store
  | p :: rs =>
      rule ← store !! p;
      addWAFDisableActionRules rs
        (if isWAFRule rule then store
         else <[p := appendAction wafDisableAction rule]> store)
  end.

Definition addWAFDisableAction (ep : as3EndpointPolicy) (store : list as3Rule)
    : option (list as3Rule) :=
  addWAFDisableActionRules (Rules ep) store.

Definition setRuleStore (store : list as3Rule) (st : PassState) : PassState :=
  {| sharedApp := sharedApp st; ruleStore := store; diagnostics := diagnostics st |}.

(** Modelled from the spec: the action that enables WAF on a rule, "kind
    ... enabled flag for WAF". *)
Definition wafEnableAction : as3Action :=
  {| Type_ := "waf"; Event := ""; Enabled := Some true |}.

(** Modelled from the spec: "rule lookup by identifier", the first rule of
    the policy that carries the name. [Some None] when no rule does. *)
Fixpoint findRule (name : string) (rs : list ptr) (store : list as3Rule)
    : option (option ptr) :=
  match rs with
  | [] => Some None
  | p :: rs =>
      rule ← store !! p;
      if decide (Name rule = name) then Some (Some p) else findRule name rs store
  end.

(** Modelled from the spec: [updatePolicyWithWAF], which as3Resource.go
    calls and does not define. "Append a WAF-enable action to the rule
    identified by the record"; "if an exposure record names a rule not
    present in the policy, that record is a no-op for this pass (no rule is
    created)", with a diagnostic event for the "exposure record naming a
    non-existent rule". *)
Definition updatePolicyWithWAF (ep : as3EndpointPolicy) (rec : Record_.t)
    (res : F5Resources.t) (st : PassState) : option PassState :=
  found ← findRule (Record_.Identifier rec) (Rules ep) (ruleStore st);
  match found with
  | Some p =>
      rule ← ruleStore st !! p;
      Some (setRuleStore (<[p := appendAction wafEnableAction rule]> (ruleStore st)) st)
  | None => Some (TLS.logWarning (RuleNotFound rec) st)
  end.

(** The local variables of [processF5ResourcesForAS3] that the loop over the
    exposure records writes, with the state of the pass. *)
Record LoopState := {
  isSecureWAF : bool;
  isInsecureWAF : bool;
  pass : PassState }.

(** [if secureEP != nil { isSecureWAF = true; updatePolicyWithWAF(...) }] *)
Definition secureHandling (secureEP : option as3EndpointPolicy)
    (rec : Record_.t) (res : F5Resources.t) (l : LoopState) : option LoopState :=
  match secureEP with
  | Some ep =>
      st ← updatePolicyWithWAF ep rec res (pass l);
      Some {| isSecureWAF := true; isInsecureWAF := isInsecureWAF l; pass := st |}
  | None => Some l
  end.

(** [if insecureEP != nil { isInsecureWAF = true; updatePolicyWithWAF(...) }] *)
Definition insecureHandling (insecureEP : option as3EndpointPolicy)
    (rec : Record_.t) (res : F5Resources.t) (l : LoopState) : option LoopState :=
  match insecureEP with
  | Some ep =>
      st ← updatePolicyWithWAF ep rec res (pass l);
      Some {| isSecureWAF := isSecureWAF l; isInsecureWAF := true; pass := st |}
  | None => Some l
  end.

(** The switch on [res.Virtual]; the case [HTTPANDS] falls through to the
    case [HTTP], and there is no default case. *)
Definition handleRecord (secureEP insecureEP : option as3EndpointPolicy)
    (l : LoopState) (entry : Record_.t * F5Resources.t) : option LoopState :=
  let '(rec, res) := entry in
  match F5Resources.Virtual res with
  | HTTPS => secureHandling secureEP rec res l
  | HTTPANDS =>
      l ← secureHandling secureEP rec res l;
      insecureHandling insecureEP rec res l
  | HTTP => insecureHandling insecureEP rec res l
  | VirtualOther _ => Some l
  end.

(** A range loop whose body may fail. *)
Fixpoint forEach {A S : Type} (body : S → A → option S) (s : S) (l : list A)
    : option S :=
  match l with
  | [] => Some s
  | x :: l => s ← body s x; forEach body s l
  end.

Definition handleGroup (secureEP insecureEP : option as3EndpointPolicy)
    (l : LoopState) (resGroup : string * InternalF5Resources) : option LoopState :=
  forEach (handleRecord secureEP insecureEP) l (snd resGroup).

(** "Update Rules with WAF action": the two nested loops. *)
Definition updateRulesWithWAF (secureEP insecureEP : option as3EndpointPolicy)
    (groups : InternalF5ResourcesGroup) (st : PassState) : option LoopState :=
  forEach (handleGroup secureEP insecureEP)
    {| isSecureWAF := false; isInsecureWAF := false; pass := st |} groups.

(** The lookup of a policy by name in the shared application, with the type
    assertion to a pointer to [as3EndpointPolicy]. *)
Definition lookupPolicy (name : string) (app : gmap string as3Object)
    : option as3EndpointPolicy :=
  match app !! name with
  | Some (ObjEndpointPolicy ep) => Some ep
  | _ => None
  end.

Definition secureName : string := "openshift_secure_routes".
Definition insecureName : string := "openshift_insecure_routes".

(** [if isWAF && ep != nil { ep.Rules = append(ep.Rules, wafDisableRule);
    addWAFDisableAction(ep) }], with [wafDisableRule] the pointer [p]. *)
Definition addDefaultWAFDisableRule (name : string) (isWAF : bool)
    (ep : option as3EndpointPolicy) (p : ptr) (st : PassState) : option PassState :=
  match isWAF, ep with
  | true, Some ep =>
      let ep := {| Rules := Rules ep ++ [p] |} in
      store ← addWAFDisableAction ep (ruleStore st);
      Some {| sharedApp := <[name := ObjEndpointPolicy ep]> (sharedApp st);
              ruleStore := store;
              diagnostics := diagnostics st |}
  | _, _ => Some st
  end.

(** The second half of [processF5ResourcesForAS3]: [wafDisableRule] is
    allocated, then appended to each touched policy. *)
Definition finishWAF (secureEP insecureEP : option as3EndpointPolicy)
    (l : LoopState) : option PassState :=
  let st := pass l in
  let p := length (ruleStore st) in
  let st := setRuleStore (ruleStore st ++ [wafDisableRule]) st in
  st ← addDefaultWAFDisableRule secureName (isSecureWAF l) secureEP p st;
  addDefaultWAFDisableRule insecureName (isInsecureWAF l) insecureEP p st.

Definition processF5ResourcesForAS3 (am : AS3Manager) (st : PassState)
    : option PassState :=
  let secureEP := lookupPolicy secureName (sharedApp st) in
  let insecureEP := lookupPolicy insecureName (sharedApp st) in
  l ← updateRulesWithWAF secureEP insecureEP (IntF5Res am) st;
  finishWAF secureEP insecureEP l.

End WAF.

(** ** Declaration assembly *)
Module Assembly.

Record as3Control := { controlUserAgent : string }.

(** Modelled from the spec: the declaration tree, "partition name; mapping
    from resource name to resource object", with its "controls" header. *)
Record as3ADC := {
  partition : string;
  declared : PassState;
  controls : option as3Control }.

Record AS3ConfigMap := { Data : string }.

Record AS3Config := {
  adc : as3ADC;
  overrideConfigmap : AS3ConfigMap }.

(** Modelled from the spec: [initDefault] and [getAS3SharedApp] of
    [as3ADC], which as3Resource.go calls and does not define. The tree is
    "created fresh each synthesis pass" for the partition. *)
Definition initDefault (name : string) : as3ADC :=
  {| partition := name;
     declared := {| sharedApp := ∅; ruleStore := []; diagnostics := [] |};
     controls := None |}.

Definition generateAS3ResourceDeclaration (env : Env) (am : AS3Manager)
    : option as3ADC :=
  let adc := initDefault (DEFAULT_PARTITION env) in
  let sharedApp := declared adc in
  let sharedApp := processResourcesForAS3 env am sharedApp in
  let sharedApp := processCustomProfilesForAS3 env am sharedApp in
  let sharedApp := TLS.processProfilesForAS3 env am sharedApp in
  let sharedApp := processIRulesForAS3 env am sharedApp in
  let sharedApp := processDataGroupForAS3 env am sharedApp in
  sharedApp ← WAF.processF5ResourcesForAS3 am sharedApp;
  Some {| partition := partition adc; declared := sharedApp; controls := controls adc |}.

(** Modelled from the spec: [isDefaultAS3PartitionEmpty], which
    as3Resource.go calls and does not define. "The declaration's target
    partition name resolves to empty/unset." *)
Definition isDefaultAS3PartitionEmpty (routeCfg : AS3Config) : bool :=
  bool_decide (partition (adc routeCfg) = "").

Definition prepareAS3ResourceConfig (env : Env) (am : AS3Manager)
    (routeCfg : AS3Config) : option AS3Config :=
  adc ← generateAS3ResourceDeclaration env am;
  let controlObj := {| controlUserAgent := userAgent am |} in
  let adc := {| partition := partition adc;
                declared := declared adc;
                controls := Some controlObj |} in
  let routeCfg := {| adc := adc; overrideConfigmap := overrideConfigmap routeCfg |} in
  Some (if isDefaultAS3PartitionEmpty routeCfg
        then {| adc := adc; overrideConfigmap := {| Data := "" |} |}
        else routeCfg).

End Assembly.

(** ** Vocabulary of the specification

    The notions the specification uses to state its properties, defined on
    the data of the pass. *)
Module Spec.

(** What one TLS association entry asks for, whichever resource kind it
    comes from ("classified TLS entry"). *)
Inductive TLSEntry :=
  | EntryServerTLS (p : as3ResourcePointer)
  | EntryClientTLS (p : as3ResourcePointer)
  | EntryIgnored.

Definition classifyIngress (profile : ProfileRef.t) : TLSEntry :=
  if decide (ProfileRef.Partition profile = "Common") then
    match ProfileRef.Context profile with
    | CustomProfileClient => EntryServerTLS {| BigIP := TLS.profilePath profile |}
    | CustomProfileServer => EntryClientTLS {| BigIP := TLS.profilePath profile |}
    | CustomProfileOther _ => EntryIgnored
    end
  else EntryIgnored.

Definition classifyRoute (entry : RouteKey.t * string) : TLSEntry :=
  match RouteKey.Context (fst entry) with
  | CustomProfileClient => EntryServerTLS {| BigIP := snd entry |}
  | CustomProfileServer => EntryClientTLS {| BigIP := snd entry |}
  | CustomProfileOther _ => EntryIgnored
  end.

Definition serverTLSOf (e : TLSEntry) : option as3ResourcePointer :=
  match e with EntryServerTLS p => Some p | _ => None end.

Definition clientTLSOf (e : TLSEntry) : option as3ResourcePointer :=
  match e with EntryClientTLS p => Some p | _ => None end.

Definition isWritten (e : TLSEntry) : bool :=
  match e with EntryIgnored => false | _ => true end.

(** The writer both paths amount to. *)
Definition writeEntry (acc : list as3ResourcePointer * as3Service) (e : TLSEntry)
    : list as3ResourcePointer * as3Service :=
  match e with
  | EntryServerTLS p =>
      (acc.1 ++ [p], TLS.updateVirtualToHTTPS (TLS.setServerTLS (acc.1 ++ [p]) acc.2))
  | EntryClientTLS p => (acc.1, TLS.updateVirtualToHTTPS (TLS.setClientTLS p acc.2))
  | EntryIgnored => acc
  end.

(** The TLS association entries of a frontend, classified. *)
Definition tlsEntries (cfg : ResourceConfig.t) : list TLSEntry :=
  match MetaData.ResourceType (ResourceConfig.MetaData cfg) with
  | ResourceTypeRoute =>
      classifyRoute <$> MetaData.RouteProfs (ResourceConfig.MetaData cfg)
  | ResourceTypeIngress =>
      classifyIngress <$> Virtual.Profiles (ResourceConfig.Virtual cfg)
  | ResourceTypeOther _ => []
  end.

(** A client-context entry in the shared partition. *)
Definition isSharedClient (profile : ProfileRef.t) : Prop :=
  ProfileRef.Partition profile = "Common" ∧
  ProfileRef.Context profile = CustomProfileClient.

#[global] Instance isSharedClient_dec profile : Decision (isSharedClient profile).
Proof. unfold isSharedClient. apply _. Defined.

Definition resourcePointer (profile : ProfileRef.t) : as3ResourcePointer :=
  {| BigIP := TLS.profilePath profile |}.

(** A server-context entry of a Route-style frontend. *)
Definition isRouteServer (entry : RouteKey.t * string) : Prop :=
  RouteKey.Context (fst entry) = CustomProfileServer.

#[global] Instance isRouteServer_dec entry : Decision (isRouteServer entry).
Proof. unfold isRouteServer. apply _. Defined.

(** A client-context entry of a Route-style frontend. *)
Definition isRouteClient (entry : RouteKey.t * string) : Prop :=
  RouteKey.Context (fst entry) = CustomProfileClient.

#[global] Instance isRouteClient_dec entry : Decision (isRouteClient entry).
Proof. unfold isRouteClient. apply _. Defined.

(** The number of WAF actions (enable or disable) a rule carries. *)
Definition wafCount (rule : as3Rule) : nat :=
  length (filter (λ action, Type_ action = "waf") (Actions rule)).

(** What the scan of [addWAFDisableAction] over the rule pointers [rs] makes
    of the rule behind pointer [p]. *)
Definition disabledIn (rs : list ptr) (p : ptr) (rule : as3Rule) : as3Rule :=
  if decide (p ∈ rs) then
    if WAF.isWAFRule rule then rule else WAF.appendAction WAF.wafDisableAction rule
  else rule.

Definition policyRules (ep : option as3EndpointPolicy) : list ptr :=
  match ep with Some ep => Rules ep | None => [] end.

(** Every rule pointer of the two conventional policies points into the
    store (no nil pointer among the rules). *)
Definition rulesAllocated (st : PassState) : Prop :=
  Forall (λ p, p < length (ruleStore st))
    (policyRules (WAF.lookupPolicy WAF.secureName (sharedApp st)) ++
     policyRules (WAF.lookupPolicy WAF.insecureName (sharedApp st))).

(** The exposure records of a pass, in the order visited. *)
Definition exposureRecords (am : AS3Manager) : list (Record_.t * F5Resources.t) :=
  mjoin (snd <$> IntF5Res am).

Definition exposesSecure (entry : Record_.t * F5Resources.t) : bool :=
  match F5Resources.Virtual (snd entry) with
  | HTTPS | HTTPANDS => true
  | _ => false
  end.

Definition exposesInsecure (entry : Record_.t * F5Resources.t) : bool :=
  match F5Resources.Virtual (snd entry) with
  | HTTP | HTTPANDS => true
  | _ => false
  end.

(** Is the policy there, and does some record of the list expose it? This
    is when the loop over the exposure records marks the policy touched. *)
Definition touchedBy (ep : option as3EndpointPolicy)
    (exposes : Record_.t * F5Resources.t → bool)
    (records : list (Record_.t * F5Resources.t)) : bool :=
  match ep with
  | Some _ => existsb exposes records
  | None => false
  end.

(** The rule pointers the scan visits for a policy: those of a touched
    policy, with the pointer [n] of the synthetic trailing rule. *)
Definition scanned (isWAF : bool) (ep : option as3EndpointPolicy) (n : ptr)
    : list ptr :=
  match isWAF, ep with
  | true, Some ep => Rules ep ++ [n]
  | _, _ => []
  end.

(** The shared application once the trailing rule is appended to the policy
    under [name], when the policy is touched. *)
Definition withTrailingRule (name : string) (isWAF : bool)
    (ep : option as3EndpointPolicy) (n : ptr) (app : gmap string as3Object)
    : gmap string as3Object :=
  match isWAF, ep with
  | true, Some ep => <[name := ObjEndpointPolicy {| Rules := Rules ep ++ [n] |}]> app
  | _, _ => app
  end.

(** What the loop over a list of exposure records does to its state, as long
    as the rule pointers of the policies are in the store. *)
Definition stepsTo (secureEP insecureEP : option as3EndpointPolicy)
    (records : list (Record_.t * F5Resources.t)) (l l' : WAF.LoopState) : Prop :=
  sharedApp (WAF.pass l') = sharedApp (WAF.pass l) ∧
  length (ruleStore (WAF.pass l')) = length (ruleStore (WAF.pass l)) ∧
  WAF.isSecureWAF l' = WAF.isSecureWAF l || touchedBy secureEP exposesSecure records ∧
  WAF.isInsecureWAF l' =
    WAF.isInsecureWAF l || touchedBy insecureEP exposesInsecure records.

(** The record names no rule of the policy. *)
Definition namesNoRule (rec : Record_.t) (ep : as3EndpointPolicy)
    (store : list as3Rule) : Prop :=
  Forall (λ p, ∃ rule, store !! p = Some rule ∧ Name rule ≠ Record_.Identifier rec)
    (Rules ep).

(** Every rule of [store] is in [store'], under its name and with its
    actions followed by some number of WAF-enable actions: what the loop over
    the exposure records may do to the rules. *)
Definition enabledFrom (store store' : list as3Rule) : Prop :=
  ∀ p rule, store !! p = Some rule →
    ∃ k, store' !! p =
           Some {| Name := Name rule;
                   Actions := Actions rule ++ replicate k WAF.wafEnableAction |}.

(** The store at the moment the scan for rules without a WAF action starts:
    the rules as the loop over the exposure records left them, and the
    synthetic trailing rule. *)
Definition storeBeforeScan (l : WAF.LoopState) : list as3Rule :=
  ruleStore (WAF.pass l) ++ [WAF.wafDisableRule].

(** Every rule of the policy is in the store after the stage, under the name
    it had, with its actions followed by one WAF-disable action when it had
    no WAF action before the scan and with the actions it had otherwise: it
    carries at least one WAF action, and as many as before when it had
    some. *)
Definition wafDecided (before after : list as3Rule) (ep : as3EndpointPolicy) : Prop :=
  ∀ p, p ∈ Rules ep →
    ∃ rule rule', before !! p = Some rule ∧ after !! p = Some rule' ∧
      Name rule' = Name rule ∧
      Actions rule' =
        Actions rule ++ (if WAF.isWAFRule rule then [] else [WAF.wafDisableAction]) ∧
      1 ≤ wafCount rule' ∧
      wafCount rule' = Nat.max 1 (wafCount rule).

End Spec.

(** ** Concrete data

    Inputs on which the pass is run in the examples below. *)
Module Examples.

(** An environment whose formatter keeps the name and whose other stages
    leave the state as it is. *)
Definition plainEnv (partitionName : string) : Env :=
  {| as3FormatedString := λ svcName _, svcName;
     DEFAULT_PARTITION := partitionName;
     processResourcesForAS3 := λ _ st, st;
     processCustomProfilesForAS3 := λ _ st, st;
     processIRulesForAS3 := λ _ st, st;
     processDataGroupForAS3 := λ _ st, st |}.

Definition httpService : as3Service :=
  {| Protocol := ServiceHTTP; ServerTLS := []; ClientTLS := None |}.

(** A Service whose ServerTLS an earlier stage has set already. *)
Definition presetService : as3Service :=
  {| Protocol := ServiceHTTPS;
     ServerTLS := [{| BigIP := "/Common/preset" |}];
     ClientTLS := None |}.

Definition clientProfile (partitionName name : string) : ProfileRef.t :=
  ProfileRef.mk partitionName name CustomProfileClient.

Definition serverProfile (partitionName name : string) : ProfileRef.t :=
  ProfileRef.mk partitionName name CustomProfileServer.

Definition allProfile (partitionName name : string) : ProfileRef.t :=
  ProfileRef.mk partitionName name (CustomProfileOther "all").

Definition ingressConfig (profiles : list ProfileRef.t) : ResourceConfig.t :=
  ResourceConfig.mk (MetaData.mk ResourceTypeIngress []) (Virtual.mk profiles).

Definition routeConfig (profs : list (RouteKey.t * string)) : ResourceConfig.t :=
  ResourceConfig.mk (MetaData.mk ResourceTypeRoute profs) (Virtual.mk []).

Definition otherConfig (tag : string) : ResourceConfig.t :=
  ResourceConfig.mk (MetaData.mk (ResourceTypeOther tag) []) (Virtual.mk []).

(** A tree that holds one Service, under the name "web". *)
Definition oneService (svc : as3Service) : PassState :=
  {| sharedApp := {[ "web" := ObjService svc ]};
     ruleStore := [];
     diagnostics := [] |}.

Definition frontends (l : list (string * ResourceConfig.t)) : AS3Manager :=
  {| userAgent := "k8s-bigip-ctlr"; RsMap := l; IntF5Res := [] |}.

(** Two client-side profiles of two routes that share one virtual. *)
Definition clientA : RouteKey.t * string :=
  (RouteKey.mk "a" "ns" CustomProfileClient, "/Common/a").
Definition clientB : RouteKey.t * string :=
  (RouteKey.mk "b" "ns" CustomProfileClient, "/Common/b").
Definition serverA : RouteKey.t * string :=
  (RouteKey.mk "a" "ns" CustomProfileServer, "/Common/sa").

(** An environment whose base stage creates the Service "web". *)
Definition webEnv (partitionName : string) : Env :=
  {| as3FormatedString := λ svcName _, svcName;
     DEFAULT_PARTITION := partitionName;
     processResourcesForAS3 := λ _ _, oneService httpService;
     processCustomProfilesForAS3 := λ _ st, st;
     processIRulesForAS3 := λ _ st, st;
     processDataGroupForAS3 := λ _ st, st |}.

Definition rule (name : string) : as3Rule := {| Name := name; Actions := [] |}.

(** A tree with the secure policy, of rule "r1", and the insecure policy, of
    rule "r2". *)
Definition twoPolicies : PassState :=
  {| sharedApp :=
       {[ WAF.secureName := ObjEndpointPolicy {| Rules := [0] |};
          WAF.insecureName := ObjEndpointPolicy {| Rules := [1] |} ]};
     ruleStore := [rule "r1"; rule "r2"];
     diagnostics := [] |}.

Definition exposures (groups : InternalF5ResourcesGroup) : AS3Manager :=
  {| userAgent := "k8s-bigip-ctlr"; RsMap := []; IntF5Res := groups |}.

Definition exposure (name : string) (virtual : VirtualType)
    : Record_.t * F5Resources.t :=
  (Record_.mk name, F5Resources.mk virtual).

End Examples.

(** ** Further vocabulary

    Notions used to state how the stages behave beyond the properties of the
    specification. *)
Module Behaviour.

(** A server-context entry in the shared partition. *)
Definition isSharedServer (profile : ProfileRef.t) : Prop :=
  ProfileRef.Partition profile = "Common" ∧
  ProfileRef.Context profile = CustomProfileServer.

#[global] Instance isSharedServer_dec profile : Decision (isSharedServer profile).
Proof. unfold isSharedServer. apply _. Defined.

(** The pointer the Route-style path makes of an entry of [RouteProfs]. *)
Definition routePointer (entry : RouteKey.t * string) : as3ResourcePointer :=
  {| BigIP := snd entry |}.

(** The entry of [RouteProfs] that says what a profile of an Ingress-style
    frontend says: the same context, and the path of the profile as value. *)
Definition asRouteEntry (namespace : string) (profile : ProfileRef.t)
    : RouteKey.t * string :=
  (RouteKey.mk (ProfileRef.Name profile) namespace (ProfileRef.Context profile),
   TLS.profilePath profile).

(** The warning a frontend causes in a tree: one for a frontend of another
    kind than Route and Ingress whose Service is in the tree, none
    otherwise. *)
Definition unsupportedWarning (env : Env) (app : gmap string as3Object)
    (frontend : string * ResourceConfig.t) : option Diagnostic :=
  match app !! TLS.serviceKey env frontend.1 frontend.2,
        MetaData.ResourceType (ResourceConfig.MetaData frontend.2) with
  | Some (ObjService _), ResourceTypeOther tag =>
      Some (UnsupportedResourceType (ResourceTypeOther tag))
  | _, _ => None
  end.

(** The shared application after a frontend: the Service under the key of
    the frontend, when there is one, is replaced by what the reader of the
    kind of the frontend makes of it. *)
Definition appAfter (env : Env) (app : gmap string as3Object)
    (frontend : string * ResourceConfig.t) : gmap string as3Object :=
  let key := TLS.serviceKey env frontend.1 frontend.2 in
  match app !! key with
  | Some (ObjService svc) =>
      match MetaData.ResourceType (ResourceConfig.MetaData frontend.2) with
      | ResourceTypeRoute =>
          <[key := ObjService (TLS.processRouteTLSProfilesForAS3
                                 (ResourceConfig.MetaData frontend.2) svc)]> app
      | ResourceTypeIngress =>
          <[key := ObjService (TLS.processIngressTLSProfilesForAS3
                                 (ResourceConfig.Virtual frontend.2) svc)]> app
      | ResourceTypeOther _ => app
      end
  | _ => app
  end.

(** Two states of a pass with the same tree and the same diagnostics, the
    diagnostics possibly in another order. *)
Definition sameTree (st1 st2 : PassState) : Prop :=
  sharedApp st1 = sharedApp st2 ∧
  ruleStore st1 = ruleStore st2 ∧
  diagnostics st1 ≡ₚ diagnostics st2.

(** The rule pointers of the policies that a list of exposure records
    touches. *)
Definition touchedRules (secureEP insecureEP : option as3EndpointPolicy)
    (records : list (Record_.t * F5Resources.t)) : list ptr :=
  (if Spec.touchedBy secureEP Spec.exposesSecure records
   then Spec.policyRules secureEP else []) ++
  (if Spec.touchedBy insecureEP Spec.exposesInsecure records
   then Spec.policyRules insecureEP else []).

End Behaviour.

(** ** Package v1: generated deep copies

    The functions [DeepCopyInto] and [DeepCopy] of the custom resource types
    whose references are slices of strings. A slice is a view on an array;
    the arrays live in a memory indexed by address, and [make] allocates at
    the end of it. The fields of a struct that hold no reference, which the
    assignment [*out = *in] copies, are kept together in [plain]. [out] is
    another struct than [in], as in [DeepCopy], which passes [new(T)]. *)
Module V1.

(** A slice of strings; the nil slice is [None]. *)
Record slice := { array : nat; offset : nat; len : nat; cap : nat }.

(** The elements a slice spans, when it lies within its array. *)
Definition elements (mem : list (list string)) (s : slice) : option (list string) :=
  a ← mem !! array s;
  if decide (offset s + len s ≤ length a)
  then Some (take (len s) (drop (offset s) a)) else None.

(** [make([]string, n)] *)
Definition make (n : nat) (mem : list (list string)) : slice * list (list string) :=
  ({| array := length mem; offset := 0; len := n; cap := n |},
   mem ++ [replicate n ""]).

(** [copy(dst, src)]: the first [min(len(dst), len(src))] elements. *)
Definition copy (dst src : slice) (mem : list (list string))
    : option (list (list string)) :=
  from ← elements mem src;
  a ← mem !! array dst;
  if decide (offset dst + len dst ≤ length a) then
    let k := len dst `min` len src in
    Some (<[array dst :=
              take (offset dst) a ++ take k from ++ drop (offset dst + k) a]> mem)
  else None.


(** The block deepcopy-gen emits for a field [F] of type [[]string]: when
    [in.F] is not nil, [out.F] becomes a slice made with [make] of the
    length of [in.F], and [copy] fills it from [in.F]; a nil field is left
    as the assignment [*out = *in] made it. *)
Definition deepCopyStrings (field : option slice) (mem : list (list string))
    : option (option slice * list (list string)) :=
  match field with
  | None => Some (None, mem)
  | Some src =>
      let '(dst, mem) := make (len src) mem in
      mem ← copy dst src mem;
      Some (Some dst, mem)
  end.

Module TLS.
Record t (Plain : Type) := mk {
  ClientSSLs : option slice;
  ServerSSLs : option slice;
  plain : Plain }.
Arguments mk {Plain}.
Arguments ClientSSLs {Plain}.
Arguments ServerSSLs {Plain}.
Arguments plain {Plain}.

Definition DeepCopyInto {Plain} (in_ : t Plain) (mem : list (list string))
    : option (t Plain * list (list string)) :=
  '(clientSSLs, mem) ← deepCopyStrings (ClientSSLs in_) mem;
  '(serverSSLs, mem) ← deepCopyStrings (ServerSSLs in_) mem;
  Some (mk clientSSLs serverSSLs (plain in_), mem).

Definition DeepCopy {Plain} (in_ : option (t Plain)) (mem : list (list string))
    : option (option (t Plain) * list (list string)) :=
  match in_ with
  | None => Some (None, mem)
  | Some in_ => '(out, mem) ← DeepCopyInto in_ mem; Some (Some out, mem)
  end.
End TLS.

Module TLSProfileSpec.
Record t (Plain TLSPlain : Type) := mk {
  Hosts : option slice;
  TLS : TLS.t TLSPlain;
  plain : Plain }.
Arguments mk {Plain TLSPlain}.
Arguments Hosts {Plain TLSPlain}.
Arguments TLS {Plain TLSPlain}.
Arguments plain {Plain TLSPlain}.

Definition DeepCopyInto {Plain TLSPlain} (in_ : t Plain TLSPlain)
    (mem : list (list string))
    : option (t Plain TLSPlain * list (list string)) :=
  '(hosts, mem) ← deepCopyStrings (Hosts in_) mem;
  '(tls, mem) ← TLS.DeepCopyInto (TLS in_) mem;
  Some (mk hosts tls (plain in_), mem).

Definition DeepCopy {Plain TLSPlain} (in_ : option (t Plain TLSPlain))
    (mem : list (list string))
    : option (option (t Plain TLSPlain) * list (list string)) :=
  match in_ with
  | None => Some (None, mem)
  | Some in_ => '(out, mem) ← DeepCopyInto in_ mem; Some (Some out, mem)
  end.

End TLSProfileSpec.




End V1.

(** * Properties *)

(** The rule pointers of a concrete tree are in its store. *)
Ltac solve_allocated :=
  unfold Spec.rulesAllocated; vm_compute; repeat constructor.

(** ** TLS attachment *)
Section tls_writer.
Import Spec.

Lemma ingressStep_classify acc profile :
  TLS.ingressStep acc profile = writeEntry acc (classifyIngress profile).
Proof.
  destruct acc as [serverTLS svc]. unfold TLS.ingressStep, classifyIngress.
  case_decide; [|done]. by destruct (ProfileRef.Context profile).
Qed.

Lemma routeStep_classify acc entry :
  TLS.routeStep acc entry = writeEntry acc (classifyRoute entry).
Proof.
  destruct acc as [serverTLS svc], entry as [key val].
  unfold TLS.routeStep, classifyRoute. simpl.
  by destruct (RouteKey.Context key).
Qed.

Lemma foldl_ext_step {A B} (f g : A → B → A) a l :
  (∀ a b, f a b = g a b) → foldl f a l = foldl g a l.
Proof.
  intros Hfg. revert a. induction l as [|b l IH]; intros a; simpl; [done|].
  by rewrite Hfg, IH.
Qed.

Lemma ingress_as_writer virtual svc :
  TLS.processIngressTLSProfilesForAS3 virtual svc =
  (foldl writeEntry ([], svc) (classifyIngress <$> Virtual.Profiles virtual)).2.
Proof.
  unfold TLS.processIngressTLSProfilesForAS3. f_equal.
  rewrite (foldl_ext_step _ (λ a p, writeEntry a (classifyIngress p))).
  - by rewrite foldl_fmap.
  - apply ingressStep_classify.
Qed.

Lemma route_as_writer metadata svc :
  TLS.processRouteTLSProfilesForAS3 metadata svc =
  (foldl writeEntry ([], svc) (classifyRoute <$> MetaData.RouteProfs metadata)).2.
Proof.
  unfold TLS.processRouteTLSProfilesForAS3. f_equal.
  rewrite (foldl_ext_step _ (λ a p, writeEntry a (classifyRoute p))).
  - by rewrite foldl_fmap.
  - apply routeStep_classify.
Qed.

(** What the writer leaves on the Service after a sequence of entries. *)
Lemma writer_result es : ∀ serverTLS svc,
  let r := foldl writeEntry (serverTLS, svc) es in
  r.1 = serverTLS ++ omap serverTLSOf es ∧
  ServerTLS r.2 =
    (if decide (omap serverTLSOf es = []) then ServerTLS svc
     else serverTLS ++ omap serverTLSOf es) ∧
  ClientTLS r.2 =
    (match last (omap clientTLSOf es) with
     | Some p => Some p
     | None => ClientTLS svc
     end) ∧
  Protocol r.2 = (if existsb isWritten es then ServiceHTTPS else Protocol svc).
Proof.
  induction es as [|e es IH]; intros serverTLS svc; simpl.
  { by rewrite app_nil_r. }
  destruct e as [p|p|]; simpl.
  - destruct (IH (serverTLS ++ [p])
                (TLS.updateVirtualToHTTPS (TLS.setServerTLS (serverTLS ++ [p]) svc)))
      as (H1 & H2 & H3 & H4).
    rewrite H1, H2, H3, H4, <-!(assoc_L (++)). simpl.
    split_and!; try done.
    + case_decide as Hnil; [|done]. do 2 f_equal. symmetry. exact Hnil.
    + by destruct (existsb isWritten es).
  - destruct (IH serverTLS (TLS.updateVirtualToHTTPS (TLS.setClientTLS p svc)))
      as (H1 & H2 & H3 & H4).
    rewrite H1, H2, H3, H4. split_and!; try done.
    + rewrite last_cons.
      change (list_omap _ _ clientTLSOf es) with (omap clientTLSOf es).
      by destruct (last (omap clientTLSOf es)).
    + by destruct (existsb isWritten es).
  - apply IH.
Qed.

End tls_writer.

Section tls_ingress.
Import Spec.

Lemma ingress_client_pointers (l : list ProfileRef.t) :
  omap serverTLSOf (classifyIngress <$> l) =
  resourcePointer <$> filter isSharedClient l.
Proof.
  induction l as [|p l IH]; [done|].
  rewrite fmap_cons, filter_cons.
  destruct (decide (isSharedClient p)) as [[HP HC]|Hn].
  - unfold classifyIngress at 1. rewrite decide_True, HC by done.
    simpl. f_equal. exact IH.
  - assert (serverTLSOf (classifyIngress p) = None) as Hnone.
    { unfold classifyIngress. case_decide as HP; [|done].
      destruct (ProfileRef.Context p) eqn:HC; try done.
      by destruct Hn. }
    simpl. rewrite Hnone. exact IH.
Qed.

(** An entry the classification ignores can be dropped from the list. *)
Lemma ingress_drop_ignored l1 p l2 svc :
  classifyIngress p = EntryIgnored →
  TLS.processIngressTLSProfilesForAS3 (Virtual.mk (l1 ++ p :: l2)) svc =
  TLS.processIngressTLSProfilesForAS3 (Virtual.mk (l1 ++ l2)) svc.
Proof.
  intros Hp. rewrite !ingress_as_writer. simpl.
  by rewrite !fmap_app, fmap_cons, !foldl_app, Hp.
Qed.




(** C10: in the profile list of an Ingress-style frontend, an entry of the
    shared partition whose context is neither client-side nor server-side
    has no effect: the pass state after the frontend is the same with and
    without the entry (Service fields and diagnostics), the frontend writes
    no diagnostic, and on its own the entry leaves the Service untouched. *)
Theorem ingress_other_context_no_effect (env : Env) (st : PassState)
    (svcName : string) (metadata : MetaData.t)
    (l1 l2 : list ProfileRef.t) (p : ProfileRef.t) (tag : string) :
  MetaData.ResourceType metadata = ResourceTypeIngress →
  ProfileRef.Partition p = "Common" →
  ProfileRef.Context p = CustomProfileOther tag →
  TLS.processFrontend env st
    (svcName, ResourceConfig.mk metadata (Virtual.mk (l1 ++ p :: l2))) =
  TLS.processFrontend env st
    (svcName, ResourceConfig.mk metadata (Virtual.mk (l1 ++ l2))) ∧
  diagnostics (TLS.processFrontend env st
    (svcName, ResourceConfig.mk metadata (Virtual.mk (l1 ++ p :: l2)))) =
  diagnostics st ∧
  ∀ svc, TLS.processIngressTLSProfilesForAS3 (Virtual.mk [p]) svc = svc.
Proof.
  intros Hty HP HC.
  assert (classifyIngress p = EntryIgnored) as Hp.
  { unfold classifyIngress. rewrite decide_True by done. by rewrite HC. }
  split_and!.
  - unfold TLS.processFrontend, TLS.serviceKey. simpl. rewrite Hty.
    destruct (sharedApp st !! _) as [[svc| |]|]; try done.
    by rewrite ingress_drop_ignored.
  - unfold TLS.processFrontend, TLS.serviceKey. simpl. rewrite Hty.
    by destruct (sharedApp st !! _) as [[svc| |]|].
  - intros svc. rewrite ingress_as_writer. simpl. by rewrite Hp.
Qed.

Lemma ingress_other_context_no_effect_witness :
  let env := Examples.plainEnv "k8s" in
  let st := Examples.oneService Examples.httpService in
  let metadata := MetaData.mk ResourceTypeIngress [] in
  let p := Examples.allProfile "Common" "http" in
  let l1 := [Examples.clientProfile "Common" "clientssl"] in
  TLS.processFrontend env st
    ("web", ResourceConfig.mk metadata (Virtual.mk (l1 ++ p :: []))) =
  TLS.processFrontend env st
    ("web", ResourceConfig.mk metadata (Virtual.mk (l1 ++ []))) ∧
  diagnostics (TLS.processFrontend env st
    ("web", ResourceConfig.mk metadata (Virtual.mk (l1 ++ p :: [])))) =
  diagnostics st ∧
  ∀ svc, TLS.processIngressTLSProfilesForAS3 (Virtual.mk [p]) svc = svc.
Proof.
  intros env st metadata p l1.
  apply (ingress_other_context_no_effect env st "web" metadata l1 [] p "all");
    reflexivity.
Defined.

End tls_ingress.

Section tls_stage.
Import Spec.
Context (env : Env).

(** Both readers are the writer run on the classified entries. *)
Lemma reader_protocol cfg svc svc' :
  (MetaData.ResourceType (ResourceConfig.MetaData cfg) = ResourceTypeRoute ∧
   svc' = TLS.processRouteTLSProfilesForAS3 (ResourceConfig.MetaData cfg) svc) ∨
  (MetaData.ResourceType (ResourceConfig.MetaData cfg) = ResourceTypeIngress ∧
   svc' = TLS.processIngressTLSProfilesForAS3 (ResourceConfig.Virtual cfg) svc) →
  Protocol svc' =
    (if existsb isWritten (tlsEntries cfg) then ServiceHTTPS else Protocol svc).
Proof.
  unfold tlsEntries. intros [[-> ->]|[-> ->]].
  - rewrite route_as_writer. apply writer_result.
  - rewrite ingress_as_writer. apply writer_result.
Qed.

(** A frontend leaves every Service of the tree a Service, and never takes
    HTTPS away from it. *)
Lemma processFrontend_keeps st frontend key svc :
  sharedApp st !! key = Some (ObjService svc) →
  ∃ svc', sharedApp (TLS.processFrontend env st frontend) !! key
            = Some (ObjService svc') ∧
          (Protocol svc = ServiceHTTPS → Protocol svc' = ServiceHTTPS).
Proof.
  intros Hkey. destruct frontend as [svcName cfg]. unfold TLS.processFrontend.
  destruct (sharedApp st !! TLS.serviceKey env svcName cfg)
    as [[svc0| |]|] eqn:Hsvc; try by eauto.
  destruct (MetaData.ResourceType (ResourceConfig.MetaData cfg)) eqn:Hty;
    simpl; try by eauto.
  all: destruct (decide (TLS.serviceKey env svcName cfg = key)) as [<-|Hne];
    [|rewrite lookup_insert_ne by done; by eauto].
  all: rewrite lookup_insert_eq; eexists; split; [done|].
  all: assert (svc0 = svc) as -> by congruence; intros HS.
  all: erewrite reader_protocol by eauto.
  all: by destruct (existsb _ _).
Qed.

Lemma foldl_processFrontend_keeps l : ∀ st key svc,
  sharedApp st !! key = Some (ObjService svc) →
  ∃ svc', sharedApp (foldl (TLS.processFrontend env) st l) !! key
            = Some (ObjService svc') ∧
          (Protocol svc = ServiceHTTPS → Protocol svc' = ServiceHTTPS).
Proof.
  induction l as [|f l IH]; intros st key svc Hkey; simpl; [by eauto|].
  destruct (processFrontend_keeps st f key svc Hkey) as (svc1 & H1 & HP1).
  destruct (IH _ key svc1 H1) as (svc2 & H2 & HP2).
  exists svc2. split; [done|]. by intros ?; apply HP2, HP1.
Qed.

(** A frontend with an entry that is written leaves its Service on HTTPS. *)
Lemma processFrontend_upgrades st svcName cfg svc :
  sharedApp st !! TLS.serviceKey env svcName cfg = Some (ObjService svc) →
  existsb isWritten (tlsEntries cfg) = true →
  ∃ svc', sharedApp (TLS.processFrontend env st (svcName, cfg))
            !! TLS.serviceKey env svcName cfg = Some (ObjService svc') ∧
          Protocol svc' = ServiceHTTPS.
Proof.
  intros Hkey Hw. unfold TLS.processFrontend. rewrite Hkey.
  destruct (MetaData.ResourceType (ResourceConfig.MetaData cfg)) eqn:Hty; simpl.
  - rewrite lookup_insert_eq. eexists. split; [done|].
    erewrite reader_protocol by eauto. by rewrite Hw.
  - rewrite lookup_insert_eq. eexists. split; [done|].
    erewrite reader_protocol by eauto. by rewrite Hw.
  - unfold tlsEntries in Hw. by rewrite Hty in Hw.
Qed.

(** C3, as the code has it: after the TLS attachment stage, the Service of
    every Route-style or Ingress-style frontend that carries at least one
    entry that is written (Route: client or server context; Ingress: shared
    partition and client or server context) and whose Service is in the tree
    has protocol HTTPS; and no Service that is on HTTPS before the stage is
    on anything else after it. *)
Theorem tls_stage_upgrades_to_https (am : AS3Manager) (st : PassState) :
  (∀ svcName cfg svc,
     (svcName, cfg) ∈ RsMap am →
     existsb isWritten (tlsEntries cfg) = true →
     sharedApp st !! TLS.serviceKey env svcName cfg = Some (ObjService svc) →
     ∃ svc', sharedApp (TLS.processProfilesForAS3 env am st)
               !! TLS.serviceKey env svcName cfg = Some (ObjService svc') ∧
             Protocol svc' = ServiceHTTPS) ∧
  (∀ key svc,
     sharedApp st !! key = Some (ObjService svc) →
     Protocol svc = ServiceHTTPS →
     ∃ svc', sharedApp (TLS.processProfilesForAS3 env am st) !! key
               = Some (ObjService svc') ∧
             Protocol svc' = ServiceHTTPS).
Proof.
  unfold TLS.processProfilesForAS3. split.
  - intros svcName cfg svc Hin Hw Hkey.
    apply list_elem_of_split in Hin as (l1 & l2 & ->).
    rewrite foldl_app. simpl.
    destruct (foldl_processFrontend_keeps l1 st _ svc Hkey) as (svc1 & H1 & _).
    destruct (processFrontend_upgrades _ svcName cfg svc1 H1 Hw)
      as (svc2 & H2 & HP2).
    destruct (foldl_processFrontend_keeps l2 _ _ svc2 H2) as (svc3 & H3 & HP3).
    exists svc3. split; [done|]. by apply HP3.
  - intros key svc Hkey HP.
    destruct (foldl_processFrontend_keeps (RsMap am) st key svc Hkey)
      as (svc1 & H1 & HP1).
    exists svc1. split; [done|]. by apply HP1.
Qed.

End tls_stage.

Lemma tls_stage_upgrades_to_https_witness :
  let env := Examples.plainEnv "k8s" in
  let cfg := Examples.ingressConfig [Examples.serverProfile "Common" "serverssl"] in
  let am := Examples.frontends [("web", cfg)] in
  let st := Examples.oneService Examples.httpService in
  ("web", cfg) ∈ RsMap am ∧
  existsb Spec.isWritten (Spec.tlsEntries cfg) = true ∧
  sharedApp st !! TLS.serviceKey env "web" cfg
    = Some (ObjService Examples.httpService) ∧
  ∃ svc', sharedApp (TLS.processProfilesForAS3 env am st)
            !! TLS.serviceKey env "web" cfg = Some (ObjService svc') ∧
          Protocol svc' = ServiceHTTPS.
Proof.
  intros env cfg am st.
  assert (("web", cfg) ∈ RsMap am) as Hin by (simpl; apply list_elem_of_here).
  split_and!; [exact Hin|reflexivity|reflexivity|].
  exact (proj1 (tls_stage_upgrades_to_https env am st) "web" cfg
           Examples.httpService Hin eq_refl eq_refl).
Defined.

(** C3, as the claim has it, fails: an Ingress-style frontend whose only TLS
    association entry, a client-context one, is scoped to another partition
    than the shared one has its Service in the tree, and the stage leaves the
    Service on HTTP. *)
Lemma tls_entry_without_upgrade :
  let env := Examples.plainEnv "k8s" in
  let cfg := Examples.ingressConfig [Examples.clientProfile "tenant" "clientssl"] in
  let am := Examples.frontends [("web", cfg)] in
  let st := Examples.oneService Examples.httpService in
  length (Virtual.Profiles (ResourceConfig.Virtual cfg)) = 1 ∧
  sharedApp st !! TLS.serviceKey env "web" cfg
    = Some (ObjService Examples.httpService) ∧
  sharedApp (TLS.processProfilesForAS3 env am st) !! TLS.serviceKey env "web" cfg
    = Some (ObjService Examples.httpService) ∧
  Protocol Examples.httpService ≠ ServiceHTTPS.
Proof. split_and!; [reflexivity..|discriminate]. Qed.

Section tls_route.
Import Spec.

Lemma route_server_count (l : list (RouteKey.t * string)) :
  length (omap clientTLSOf (classifyRoute <$> l)) = length (filter isRouteServer l).
Proof.
  induction l as [|[key val] l IH]; [done|].
  rewrite fmap_cons, filter_cons.
  destruct (decide (isRouteServer (key, val))) as [H|H];
    unfold isRouteServer in H; simpl in H.
  - unfold classifyRoute at 1. simpl. rewrite H. simpl. by f_equal.
  - assert (clientTLSOf (classifyRoute (key, val)) = None) as Hnone.
    { unfold classifyRoute. simpl. by destruct (RouteKey.Context key). }
    simpl. rewrite Hnone. exact IH.
Qed.

Lemma route_client_count (l : list (RouteKey.t * string)) :
  length (omap serverTLSOf (classifyRoute <$> l)) = length (filter isRouteClient l).
Proof.
  induction l as [|[key val] l IH]; [done|].
  rewrite fmap_cons, filter_cons.
  destruct (decide (isRouteClient (key, val))) as [H|H];
    unfold isRouteClient in H; simpl in H.
  - unfold classifyRoute at 1. simpl. rewrite H. simpl. by f_equal.
  - assert (serverTLSOf (classifyRoute (key, val)) = None) as Hnone.
    { unfold classifyRoute. simpl. by destruct (RouteKey.Context key). }
    simpl. rewrite Hnone. exact IH.
Qed.

Lemma existsb_Permutation {A} (f : A → bool) (l1 l2 : list A) :
  l1 ≡ₚ l2 → existsb f l1 = existsb f l2.
Proof.
  induction 1 as [|x l1 l2 _ IH|x y l|l1 l2 l3 _ IH1 _ IH2]; simpl.
  - done.
  - by rewrite IH.
  - by destruct (f x), (f y).
  - by rewrite IH1.
Qed.

(** Two visits of one short list are the same list. *)
Lemma Permutation_short {A} (l1 l2 : list A) :
  l1 ≡ₚ l2 → length l1 ≤ 1 → l1 = l2.
Proof.
  intros Hperm Hlen. destruct l1 as [|x [|y l1]]; simpl in Hlen; [| |lia].
  - by apply Permutation_nil_l in Hperm.
  - by apply Permutation_singleton_l in Hperm.
Qed.

(** C8, as the code has it: the Route-style TLS path is a function of the
    Service and of the order in which the range statement visits the map
    [RouteProfs]. For two visits of one map, in whatever orders, the two
    ServerTLS lists hold the same pointers (each is a permutation of the
    other) and the protocols are equal; the ServerTLS lists are equal when
    the map has at most one client-context entry, the ClientTLS pointers are
    equal when it has at most one server-context entry, and with both the
    two Services are the same. *)
Theorem route_tls_up_to_visiting_order (ty : ResourceType)
    (visit1 visit2 : list (RouteKey.t * string)) (svc : as3Service) :
  visit1 ≡ₚ visit2 →
  let svc1 := TLS.processRouteTLSProfilesForAS3 (MetaData.mk ty visit1) svc in
  let svc2 := TLS.processRouteTLSProfilesForAS3 (MetaData.mk ty visit2) svc in
  ServerTLS svc1 ≡ₚ ServerTLS svc2 ∧
  Protocol svc1 = Protocol svc2 ∧
  (length (filter isRouteClient visit1) ≤ 1 → ServerTLS svc1 = ServerTLS svc2) ∧
  (length (filter isRouteServer visit1) ≤ 1 → ClientTLS svc1 = ClientTLS svc2) ∧
  (length (filter isRouteClient visit1) ≤ 1 →
   length (filter isRouteServer visit1) ≤ 1 → svc1 = svc2).
Proof.
  intros Hperm svc1 svc2.
  assert (classifyRoute <$> visit1 ≡ₚ classifyRoute <$> visit2) as Hes
    by by rewrite Hperm.
  assert (omap serverTLSOf (classifyRoute <$> visit1) ≡ₚ
          omap serverTLSOf (classifyRoute <$> visit2)) as HS by by rewrite Hes.
  assert (omap clientTLSOf (classifyRoute <$> visit1) ≡ₚ
          omap clientTLSOf (classifyRoute <$> visit2)) as HC by by rewrite Hes.
  destruct (writer_result (classifyRoute <$> visit1) [] svc) as (_ & S1 & C1 & P1).
  destruct (writer_result (classifyRoute <$> visit2) [] svc) as (_ & S2 & C2 & P2).
  simpl in S1, S2, C1, C2, P1, P2.
  rewrite <-(route_as_writer (MetaData.mk ty visit1)) in S1, C1, P1.
  rewrite <-(route_as_writer (MetaData.mk ty visit2)) in S2, C2, P2.
  fold svc1 in S1, C1, P1. fold svc2 in S2, C2, P2.
  assert (ServerTLS svc1 ≡ₚ ServerTLS svc2) as HSperm.
  { rewrite S1, S2.
    destruct (decide (omap serverTLSOf (classifyRoute <$> visit1) = [])) as [E1|E1],
      (decide (omap serverTLSOf (classifyRoute <$> visit2) = [])) as [E2|E2];
      try done.
    - exfalso. rewrite E1 in HS. by apply Permutation_nil_l in HS.
    - exfalso. rewrite E2 in HS. by apply Permutation_nil_r in HS. }
  assert (Protocol svc1 = Protocol svc2) as HP.
  { by rewrite P1, P2, (existsb_Permutation _ _ _ Hes). }
  assert (length (filter isRouteClient visit1) ≤ 1 → ServerTLS svc1 = ServerTLS svc2)
    as HSeq.
  { intros Hlen. rewrite <-route_client_count in Hlen.
    rewrite S1, S2. by rewrite <-(Permutation_short _ _ HS Hlen). }
  assert (length (filter isRouteServer visit1) ≤ 1 → ClientTLS svc1 = ClientTLS svc2)
    as HCeq.
  { intros Hlen. rewrite <-route_server_count in Hlen.
    rewrite C1, C2. by rewrite <-(Permutation_short _ _ HC Hlen). }
  split_and!; try done.
  intros H1 H2. specialize (HSeq H1). specialize (HCeq H2).
  clearbody svc1 svc2. destruct svc1, svc2; simpl in *.
  by rewrite HP, HSeq, HCeq.
Qed.

Lemma route_tls_up_to_visiting_order_witness :
  let visit1 := [Examples.clientA; Examples.serverA] in
  let visit2 := [Examples.serverA; Examples.clientA] in
  let svc1 := TLS.processRouteTLSProfilesForAS3
                (MetaData.mk ResourceTypeRoute visit1) Examples.httpService in
  let svc2 := TLS.processRouteTLSProfilesForAS3
                (MetaData.mk ResourceTypeRoute visit2) Examples.httpService in
  visit1 ≡ₚ visit2 ∧
  ServerTLS svc1 ≡ₚ ServerTLS svc2 ∧
  Protocol svc1 = Protocol svc2 ∧
  (length (filter isRouteClient visit1) ≤ 1 → ServerTLS svc1 = ServerTLS svc2) ∧
  (length (filter isRouteServer visit1) ≤ 1 → ClientTLS svc1 = ClientTLS svc2) ∧
  (length (filter isRouteClient visit1) ≤ 1 →
   length (filter isRouteServer visit1) ≤ 1 → svc1 = svc2).
Proof.
  intros visit1 visit2 svc1 svc2.
  assert (visit1 ≡ₚ visit2) as Hperm by apply Permutation_swap.
  split; [exact Hperm|].
  exact (route_tls_up_to_visiting_order ResourceTypeRoute visit1 visit2
           Examples.httpService Hperm).
Defined.

(** C8, as the claim has it, fails: one map [RouteProfs] with two
    client-context entries, visited in its two orders by two runs over the
    same snapshot, gives two different ServerTLS lists, two different trees
    after the TLS attachment stage and two different declarations. *)
Lemma route_tls_depends_on_visiting_order :
  let visit1 := [Examples.clientA; Examples.clientB] in
  let visit2 := [Examples.clientB; Examples.clientA] in
  let am1 := Examples.frontends [("web", Examples.routeConfig visit1)] in
  let am2 := Examples.frontends [("web", Examples.routeConfig visit2)] in
  let env := Examples.webEnv "k8s" in
  visit1 ≡ₚ visit2 ∧ NoDup visit1.*1 ∧
  ServerTLS (TLS.processRouteTLSProfilesForAS3
               (MetaData.mk ResourceTypeRoute visit1) Examples.httpService) ≠
  ServerTLS (TLS.processRouteTLSProfilesForAS3
               (MetaData.mk ResourceTypeRoute visit2) Examples.httpService) ∧
  TLS.processProfilesForAS3 env am1 (Examples.oneService Examples.httpService) ≠
  TLS.processProfilesForAS3 env am2 (Examples.oneService Examples.httpService) ∧
  Assembly.generateAS3ResourceDeclaration env am1 ≠
  Assembly.generateAS3ResourceDeclaration env am2.
Proof.
  intros visit1 visit2 am1 am2 env. split_and!.
  - apply Permutation_swap.
  - apply (bool_decide_unpack _). by vm_compute.
  - discriminate.
  - intros Heq. apply (f_equal (λ st, sharedApp st !! "web")) in Heq.
    vm_compute in Heq. discriminate.
  - intros Heq.
    apply (f_equal (λ adc, (λ a, sharedApp (Assembly.declared a) !! "web") <$> adc))
      in Heq.
    vm_compute in Heq. discriminate.
Qed.

End tls_route.

(** ** WAF injection *)
Section waf_scan.
Import Spec.

Lemma existsb_isWAFAction (l : list as3Action) :
  existsb WAF.isWAFAction l = false ↔
  filter (λ action, Type_ action = "waf") l = [].
Proof.
  induction l as [|a l IH]; [done|].
  rewrite filter_cons. simpl. unfold WAF.isWAFAction at 1.
  destruct (decide (Type_ a = "waf")) as [Ha|Ha].
  - rewrite bool_decide_eq_true_2 by done. simpl. split; discriminate.
  - rewrite bool_decide_eq_false_2 by done. simpl. exact IH.
Qed.

Lemma isWAFRule_false rule : WAF.isWAFRule rule = false ↔ wafCount rule = 0.
Proof.
  unfold WAF.isWAFRule, wafCount. rewrite existsb_isWAFAction.
  split; [by intros ->|]. apply nil_length_inv.
Qed.

Lemma isWAFRule_true rule : WAF.isWAFRule rule = true ↔ 1 ≤ wafCount rule.
Proof.
  destruct (WAF.isWAFRule rule) eqn:Hw.
  - split; [intros _|done].
    destruct (wafCount rule) eqn:Hc; [|lia].
    apply isWAFRule_false in Hc. congruence.
  - apply isWAFRule_false in Hw. split; [done|lia].
Qed.

Lemma wafCount_appendAction action rule :
  wafCount (WAF.appendAction action rule) =
  wafCount rule + (if WAF.isWAFAction action then 1 else 0).
Proof.
  unfold wafCount, WAF.appendAction, WAF.isWAFAction. simpl.
  rewrite filter_app, length_app, filter_cons, filter_nil.
  destruct (decide (Type_ action = "waf")).
  - by rewrite bool_decide_eq_true_2.
  - by rewrite bool_decide_eq_false_2.
Qed.

Lemma disabledIn_waf rs p rule :
  WAF.isWAFRule rule = true → disabledIn rs p rule = rule.
Proof. intros Hw. unfold disabledIn. rewrite Hw. by case_decide. Qed.

Lemma disabledIn_nil p rule : disabledIn [] p rule = rule.
Proof. unfold disabledIn. rewrite decide_False; [done|]. apply not_elem_of_nil. Qed.

Lemma disabledIn_name rs p rule : Name (disabledIn rs p rule) = Name rule.
Proof. unfold disabledIn. case_decide; [|done]. by destruct (WAF.isWAFRule rule). Qed.

Lemma disabledIn_count rs p rule :
  wafCount (disabledIn rs p rule) =
  if decide (p ∈ rs) then Nat.max 1 (wafCount rule) else wafCount rule.
Proof.
  unfold disabledIn. case_decide; [|done].
  destruct (WAF.isWAFRule rule) eqn:Hw.
  - apply isWAFRule_true in Hw. lia.
  - apply isWAFRule_false in Hw. rewrite wafCount_appendAction, Hw. done.
Qed.

Lemma disabledIn_is_waf rs p rule :
  p ∈ rs → WAF.isWAFRule (disabledIn rs p rule) = true.
Proof.
  intros Hp. apply isWAFRule_true. rewrite disabledIn_count, decide_True by done. lia.
Qed.

Lemma imap_disabledIn_nil (store : list as3Rule) : imap (disabledIn []) store = store.
Proof.
  apply list_eq. intros i. rewrite list_lookup_imap.
  destruct (store !! i); simpl; [|done]. by rewrite disabledIn_nil.
Qed.

(** The scan over pointers that all point into the store returns, and
    what it returns is the store with [disabledIn] applied at each pointer. *)
Lemma addWAFDisableActionRules_spec rs : ∀ store,
  Forall (λ p, p < length store) rs →
  WAF.addWAFDisableActionRules rs store = Some (imap (disabledIn rs) store).
Proof.
  induction rs as [|p rs IH]; intros store Hrs;
    cbn [WAF.addWAFDisableActionRules].
  { by rewrite imap_disabledIn_nil. }
  apply Forall_cons in Hrs as [Hp Hrs].
  destruct (lookup_lt_is_Some_2 _ _ Hp) as [rule Hrule]. rewrite Hrule. simpl.
  rewrite IH; last first.
  { destruct (WAF.isWAFRule rule); [done|]. by rewrite length_insert. }
  f_equal. apply list_eq. intros i. rewrite !list_lookup_imap.
  destruct (decide (i = p)) as [->|Hne].
  - destruct (WAF.isWAFRule rule) eqn:Hw.
    + rewrite Hrule. simpl. by rewrite !disabledIn_waf.
    + rewrite list_lookup_insert_eq, Hrule by done. simpl. f_equal.
      rewrite disabledIn_waf.
      * unfold disabledIn. rewrite decide_True by apply list_elem_of_here.
        by rewrite Hw.
      * apply isWAFRule_true. rewrite wafCount_appendAction. simpl. lia.
  - assert ((if WAF.isWAFRule rule then store
             else <[p:=WAF.appendAction WAF.wafDisableAction rule]> store) !! i
            = store !! i) as ->.
    { destruct (WAF.isWAFRule rule); [done|]. by rewrite list_lookup_insert_ne. }
    destruct (store !! i) as [r|]; simpl; [|done]. f_equal.
    unfold disabledIn.
    destruct (decide (i ∈ rs)) as [Hin|Hin].
    + by rewrite decide_True by (by apply list_elem_of_further).
    + rewrite decide_False; [done|]. rewrite elem_of_cons. by intros [?|?].
Qed.

End waf_scan.

Section waf_loop.
Import Spec.

Lemma findRule_missing rec ep store :
  namesNoRule rec ep store →
  WAF.findRule (Record_.Identifier rec) (Rules ep) store = Some None.
Proof.
  unfold namesNoRule. induction 1 as [|p rs (rule & Hrule & Hname) _ IH];
    cbn [WAF.findRule]; [done|].
  rewrite Hrule. simpl. by rewrite decide_False.
Qed.

Lemma findRule_total name rs store :
  Forall (λ p, p < length store) rs →
  WAF.findRule name rs store = Some None ∨
  ∃ p, WAF.findRule name rs store = Some (Some p) ∧ p ∈ rs ∧ p < length store.
Proof.
  induction 1 as [|p rs Hp Hrs IH]; cbn [WAF.findRule]; [by left|].
  destruct (lookup_lt_is_Some_2 _ _ Hp) as [rule ->]. simpl.
  case_decide.
  - right. exists p. split_and!; [done| |done]. apply list_elem_of_here.
  - destruct IH as [IH|(q & IH & Hq & Hlt)]; [by left|].
    right. exists q. split_and!; [done| |done]. by apply list_elem_of_further.
Qed.

(** With the rule pointers of the policy in the store, the helper returns;
    it leaves the shared application and the size of the store. *)
Lemma updatePolicyWithWAF_total ep rec res st :
  Forall (λ p, p < length (ruleStore st)) (Rules ep) →
  ∃ st', WAF.updatePolicyWithWAF ep rec res st = Some st' ∧
         sharedApp st' = sharedApp st ∧
         length (ruleStore st') = length (ruleStore st).
Proof.
  intros Hrs. unfold WAF.updatePolicyWithWAF.
  destruct (findRule_total (Record_.Identifier rec) _ _ Hrs)
    as [->|(p & -> & _ & Hp)]; simpl.
  - by eexists.
  - destruct (lookup_lt_is_Some_2 _ _ Hp) as [rule ->]. simpl.
    eexists. split_and!; [done..|]. simpl. by rewrite length_insert.
Qed.

Lemma updatePolicyWithWAF_missing ep rec res st :
  namesNoRule rec ep (ruleStore st) →
  WAF.updatePolicyWithWAF ep rec res st = Some (TLS.logWarning (RuleNotFound rec) st).
Proof.
  intros Hno. unfold WAF.updatePolicyWithWAF. by rewrite findRule_missing.
Qed.

Lemma touchedBy_cons ep exposes entry records :
  touchedBy ep exposes (entry :: records) =
  touchedBy ep exposes [entry] || touchedBy ep exposes records.
Proof. destruct ep; simpl; [|done]. by rewrite orb_false_r. Qed.

Lemma touchedBy_app ep exposes records1 records2 :
  touchedBy ep exposes (records1 ++ records2) =
  touchedBy ep exposes records1 || touchedBy ep exposes records2.
Proof. destruct ep; simpl; [|done]. apply existsb_app. Qed.

Lemma secureHandling_total secureEP rec res l :
  Forall (λ p, p < length (ruleStore (WAF.pass l))) (policyRules secureEP) →
  ∃ l', WAF.secureHandling secureEP rec res l = Some l' ∧
        sharedApp (WAF.pass l') = sharedApp (WAF.pass l) ∧
        length (ruleStore (WAF.pass l')) = length (ruleStore (WAF.pass l)) ∧
        WAF.isSecureWAF l' = WAF.isSecureWAF l || bool_decide (is_Some secureEP) ∧
        WAF.isInsecureWAF l' = WAF.isInsecureWAF l.
Proof.
  intros Hrs. unfold WAF.secureHandling. destruct secureEP as [ep|]; simpl.
  - destruct (updatePolicyWithWAF_total ep rec res _ Hrs) as (st' & -> & ? & ?).
    simpl. eexists. split_and!; [done..|simpl|done]. by rewrite orb_true_r.
  - eexists. split_and!; [done..|simpl|done]. by rewrite orb_false_r.
Qed.

Lemma insecureHandling_total insecureEP rec res l :
  Forall (λ p, p < length (ruleStore (WAF.pass l))) (policyRules insecureEP) →
  ∃ l', WAF.insecureHandling insecureEP rec res l = Some l' ∧
        sharedApp (WAF.pass l') = sharedApp (WAF.pass l) ∧
        length (ruleStore (WAF.pass l')) = length (ruleStore (WAF.pass l)) ∧
        WAF.isSecureWAF l' = WAF.isSecureWAF l ∧
        WAF.isInsecureWAF l' =
          WAF.isInsecureWAF l || bool_decide (is_Some insecureEP).
Proof.
  intros Hrs. unfold WAF.insecureHandling. destruct insecureEP as [ep|]; simpl.
  - destruct (updatePolicyWithWAF_total ep rec res _ Hrs) as (st' & -> & ? & ?).
    simpl. eexists. split_and!; [done..|simpl]. by rewrite orb_true_r.
  - eexists. split_and!; [done..|simpl]. by rewrite orb_false_r.
Qed.

Lemma handleRecord_total secureEP insecureEP l entry :
  Forall (λ p, p < length (ruleStore (WAF.pass l)))
    (policyRules secureEP ++ policyRules insecureEP) →
  ∃ l', WAF.handleRecord secureEP insecureEP l entry = Some l' ∧
        stepsTo secureEP insecureEP [entry] l l'.
Proof.
  intros [HS HI]%Forall_app. destruct entry as [rec [virtual]].
  unfold WAF.handleRecord, stepsTo, exposesSecure, exposesInsecure. simpl.
  destruct virtual.
  - destruct (insecureHandling_total insecureEP rec (F5Resources.mk HTTP) l HI)
      as (l' & -> & Happ & Hlen & HfS & HfI).
    exists l'. split_and!; try done.
    + rewrite HfS. destruct secureEP; simpl; by rewrite orb_false_r.
    + rewrite HfI. by destruct insecureEP.
  - destruct (secureHandling_total secureEP rec (F5Resources.mk HTTPS) l HS)
      as (l' & -> & Happ & Hlen & HfS & HfI).
    exists l'. split_and!; try done.
    + rewrite HfS. by destruct secureEP.
    + rewrite HfI. destruct insecureEP; simpl; by rewrite orb_false_r.
  - destruct (secureHandling_total secureEP rec (F5Resources.mk HTTPANDS) l HS)
      as (l1 & -> & Happ1 & Hlen1 & HfS1 & HfI1). simpl.
    rewrite <-Hlen1 in HI.
    destruct (insecureHandling_total insecureEP rec (F5Resources.mk HTTPANDS) l1 HI)
      as (l' & -> & Happ & Hlen & HfS & HfI).
    exists l'. split_and!; try congruence.
    + rewrite HfS, HfS1. by destruct secureEP.
    + rewrite HfI, HfI1. by destruct insecureEP.
  - exists l. split_and!; try done.
    + destruct secureEP; simpl; by rewrite orb_false_r.
    + destruct insecureEP; simpl; by rewrite orb_false_r.
Qed.

Lemma stepsTo_refl secureEP insecureEP l : stepsTo secureEP insecureEP [] l l.
Proof.
  unfold stepsTo. split_and!; try done.
  - destruct secureEP; simpl; by rewrite orb_false_r.
  - destruct insecureEP; simpl; by rewrite orb_false_r.
Qed.

Lemma stepsTo_trans secureEP insecureEP records1 records2 l1 l2 l3 :
  stepsTo secureEP insecureEP records1 l1 l2 →
  stepsTo secureEP insecureEP records2 l2 l3 →
  stepsTo secureEP insecureEP (records1 ++ records2) l1 l3.
Proof.
  intros (A1 & B1 & C1 & D1) (A2 & B2 & C2 & D2). unfold stepsTo.
  rewrite !touchedBy_app, !orb_assoc, <-C1, <-D1. split_and!; congruence.
Qed.

Lemma forEach_handleRecord_total secureEP insecureEP records : ∀ l,
  Forall (λ p, p < length (ruleStore (WAF.pass l)))
    (policyRules secureEP ++ policyRules insecureEP) →
  ∃ l', WAF.forEach (WAF.handleRecord secureEP insecureEP) l records = Some l' ∧
        stepsTo secureEP insecureEP records l l'.
Proof.
  induction records as [|entry records IH]; intros l Hrs; cbn [WAF.forEach].
  { exists l. split; [done|]. apply stepsTo_refl. }
  destruct (handleRecord_total secureEP insecureEP l entry Hrs) as (l1 & -> & H1).
  simpl. destruct (IH l1) as (l' & -> & H2).
  { destruct H1 as (_ & -> & _). done. }
  exists l'. split; [done|]. by apply (stepsTo_trans _ _ [entry] records l l1 l').
Qed.

Lemma forEach_handleGroup_total secureEP insecureEP groups : ∀ l,
  Forall (λ p, p < length (ruleStore (WAF.pass l)))
    (policyRules secureEP ++ policyRules insecureEP) →
  ∃ l', WAF.forEach (WAF.handleGroup secureEP insecureEP) l groups = Some l' ∧
        stepsTo secureEP insecureEP (mjoin (snd <$> groups)) l l'.
Proof.
  induction groups as [|[ns records] groups IH]; intros l Hrs; cbn [WAF.forEach].
  { exists l. split; [done|]. apply stepsTo_refl. }
  change (WAF.handleGroup secureEP insecureEP l (ns, records))
    with (WAF.forEach (WAF.handleRecord secureEP insecureEP) l records).
  destruct (forEach_handleRecord_total secureEP insecureEP records l Hrs)
    as (l1 & -> & H1).
  simpl. destruct (IH l1) as (l' & -> & H2).
  { destruct H1 as (_ & -> & _). done. }
  exists l'. split; [done|]. by apply (stepsTo_trans _ _ records _ l l1 l').
Qed.

(** The loop over the exposure records returns; it leaves the shared
    application and the size of the store, and marks a policy touched when
    the policy is there and a record exposes it. *)
Lemma updateRulesWithWAF_total am st :
  rulesAllocated st →
  let secureEP := WAF.lookupPolicy WAF.secureName (sharedApp st) in
  let insecureEP := WAF.lookupPolicy WAF.insecureName (sharedApp st) in
  ∃ l, WAF.updateRulesWithWAF secureEP insecureEP (IntF5Res am) st = Some l ∧
       sharedApp (WAF.pass l) = sharedApp st ∧
       length (ruleStore (WAF.pass l)) = length (ruleStore st) ∧
       WAF.isSecureWAF l = touchedBy secureEP exposesSecure (exposureRecords am) ∧
       WAF.isInsecureWAF l = touchedBy insecureEP exposesInsecure (exposureRecords am).
Proof.
  intros Hrs secureEP insecureEP. unfold WAF.updateRulesWithWAF.
  destruct (forEach_handleGroup_total secureEP insecureEP (IntF5Res am)
              {| WAF.isSecureWAF := false; WAF.isInsecureWAF := false; WAF.pass := st |}
              Hrs) as (l & -> & H1 & H2 & H3 & H4).
  exists l. by split_and!.
Qed.

Lemma enabledFrom_refl store : enabledFrom store store.
Proof.
  intros p [name actions] Hp. exists 0. simpl. by rewrite app_nil_r.
Qed.

Lemma enabledFrom_trans store1 store2 store3 :
  enabledFrom store1 store2 → enabledFrom store2 store3 →
  enabledFrom store1 store3.
Proof.
  intros H12 H23 p rule Hp.
  destruct (H12 p rule Hp) as [k1 H1]. destruct (H23 p _ H1) as [k2 H2].
  exists (k1 + k2). rewrite H2. simpl. by rewrite <-(assoc_L (++)), replicate_add.
Qed.

Lemma enabledFrom_insert (store : list as3Rule) p rule :
  store !! p = Some rule →
  enabledFrom store (<[p := WAF.appendAction WAF.wafEnableAction rule]> store).
Proof.
  intros Hp q rule' Hq. destruct (decide (q = p)) as [->|Hne].
  - exists 1. rewrite list_lookup_insert_eq by (by eapply lookup_lt_Some).
    by assert (rule' = rule) as -> by congruence.
  - rewrite list_lookup_insert_ne by done. by apply enabledFrom_refl.
Qed.

Lemma updatePolicyWithWAF_enables ep rec res st st' :
  WAF.updatePolicyWithWAF ep rec res st = Some st' →
  enabledFrom (ruleStore st) (ruleStore st').
Proof.
  unfold WAF.updatePolicyWithWAF. intros Hst'.
  destruct (WAF.findRule _ _ _) as [[p|]|]; simpl in Hst'; [| |done].
  - destruct (ruleStore st !! p) as [rule|] eqn:Hp; simpl in Hst'; [|done].
    injection Hst' as <-. simpl. by apply enabledFrom_insert.
  - injection Hst' as <-. apply enabledFrom_refl.
Qed.

Lemma handleRecord_enables secureEP insecureEP l entry l' :
  WAF.handleRecord secureEP insecureEP l entry = Some l' →
  enabledFrom (ruleStore (WAF.pass l)) (ruleStore (WAF.pass l')).
Proof.
  destruct entry as [rec [virtual]].
  unfold WAF.handleRecord, WAF.secureHandling, WAF.insecureHandling. simpl.
  intros Hl'.
  destruct virtual, secureEP as [epS|], insecureEP as [epI|]; simpl in Hl';
    repeat match type of Hl' with
    | context [WAF.updatePolicyWithWAF ?ep ?rec ?res ?st] =>
        let H := fresh "Hupd" in
        destruct (WAF.updatePolicyWithWAF ep rec res st) eqn:H;
        simpl in Hl'; [apply updatePolicyWithWAF_enables in H|done]
    end;
    injection Hl' as <-; simpl;
    eauto using enabledFrom_refl, enabledFrom_trans.
Qed.

Lemma forEach_enables {A} (body : WAF.LoopState → A → option WAF.LoopState) items :
  (∀ l x l', body l x = Some l' →
     enabledFrom (ruleStore (WAF.pass l)) (ruleStore (WAF.pass l'))) →
  ∀ l l', WAF.forEach body l items = Some l' →
    enabledFrom (ruleStore (WAF.pass l)) (ruleStore (WAF.pass l')).
Proof.
  intros Hbody. induction items as [|x items IH]; intros l l' Hl';
    cbn [WAF.forEach] in Hl'.
  { injection Hl' as <-. apply enabledFrom_refl. }
  destruct (body l x) as [l1|] eqn:Hl1; simpl in Hl'; [|done].
  eauto using enabledFrom_trans.
Qed.

(** The loop over the exposure records only appends WAF-enable actions. *)
Lemma updateRulesWithWAF_enables secureEP insecureEP groups st l :
  WAF.updateRulesWithWAF secureEP insecureEP groups st = Some l →
  enabledFrom (ruleStore st) (ruleStore (WAF.pass l)).
Proof.
  unfold WAF.updateRulesWithWAF. intros Hl.
  apply (forEach_enables (WAF.handleGroup secureEP insecureEP) groups) in Hl;
    [done|].
  intros l0 [ns records] l1. unfold WAF.handleGroup. simpl.
  apply forEach_enables. intros ???. apply handleRecord_enables.
Qed.

End waf_loop.

Section waf_stage.
Import Spec.

Lemma addDefaultWAFDisableRule_spec name isWAF ep n st :
  Forall (λ p, p < length (ruleStore st)) (scanned isWAF ep n) →
  WAF.addDefaultWAFDisableRule name isWAF ep n st =
  Some {| sharedApp := withTrailingRule name isWAF ep n (sharedApp st);
          ruleStore := imap (disabledIn (scanned isWAF ep n)) (ruleStore st);
          diagnostics := diagnostics st |}.
Proof.
  intros Hrs. unfold WAF.addDefaultWAFDisableRule, scanned, withTrailingRule.
  destruct isWAF, ep as [ep|]; simpl in *;
    rewrite ?imap_disabledIn_nil; try by destruct st.
  unfold WAF.addWAFDisableAction. simpl.
  by rewrite addWAFDisableActionRules_spec.
Qed.

Lemma scanned_allocated isWAF ep n (store : list as3Rule) :
  Forall (λ p, p < n) (policyRules ep) →
  length store = S n →
  Forall (λ p, p < length store) (scanned isWAF ep n).
Proof.
  intros Hrs ->. unfold scanned. destruct isWAF, ep as [ep|]; simpl in *; try done.
  apply Forall_app. split.
  - eapply Forall_impl; [done|]. simpl. lia.
  - apply Forall_singleton. lia.
Qed.

(** The second half of the stage, in closed form. *)
Lemma finishWAF_spec secureEP insecureEP l :
  Forall (λ p, p < length (ruleStore (WAF.pass l)))
    (policyRules secureEP ++ policyRules insecureEP) →
  let n := length (ruleStore (WAF.pass l)) in
  WAF.finishWAF secureEP insecureEP l =
  Some {| sharedApp :=
            withTrailingRule WAF.insecureName (WAF.isInsecureWAF l) insecureEP n
              (withTrailingRule WAF.secureName (WAF.isSecureWAF l) secureEP n
                 (sharedApp (WAF.pass l)));
          ruleStore :=
            imap (disabledIn (scanned (WAF.isInsecureWAF l) insecureEP n))
              (imap (disabledIn (scanned (WAF.isSecureWAF l) secureEP n))
                 (storeBeforeScan l));
          diagnostics := diagnostics (WAF.pass l) |}.
Proof.
  intros [HS HI]%Forall_app n. unfold WAF.finishWAF. fold n.
  assert (length (storeBeforeScan l) = S n) as Hlen.
  { unfold storeBeforeScan. rewrite length_app. simpl. lia. }
  rewrite addDefaultWAFDisableRule_spec; simpl.
  - rewrite addDefaultWAFDisableRule_spec; simpl; [done|].
    apply scanned_allocated; [done|]. by rewrite length_imap.
  - by apply scanned_allocated.
Qed.

Lemma names_differ : WAF.secureName ≠ WAF.insecureName.
Proof. discriminate. Qed.

Lemma lookupPolicy_insert name ep app :
  WAF.lookupPolicy name (<[name := ObjEndpointPolicy ep]> app) = Some ep.
Proof. unfold WAF.lookupPolicy. by rewrite lookup_insert_eq. Qed.

Lemma lookupPolicy_insert_ne name name' obj app :
  name' ≠ name →
  WAF.lookupPolicy name (<[name' := obj]> app) = WAF.lookupPolicy name app.
Proof. intros Hne. unfold WAF.lookupPolicy. by rewrite lookup_insert_ne. Qed.

(** The scans of the two policies settle the WAF decision of each rule they
    visit. *)
Lemma scans_decide rsS rsI (before : list as3Rule) p :
  p ∈ rsS ∨ p ∈ rsI →
  p < length before →
  ∃ rule rule', before !! p = Some rule ∧
    imap (disabledIn rsI) (imap (disabledIn rsS) before) !! p = Some rule' ∧
    Name rule' = Name rule ∧
    Actions rule' =
      Actions rule ++ (if WAF.isWAFRule rule then [] else [WAF.wafDisableAction]) ∧
    1 ≤ wafCount rule' ∧
    wafCount rule' = Nat.max 1 (wafCount rule).
Proof.
  intros Hp Hlt. destruct (lookup_lt_is_Some_2 _ _ Hlt) as [rule Hrule].
  exists rule, (disabledIn rsI p (disabledIn rsS p rule)).
  rewrite !list_lookup_imap, Hrule. simpl.
  assert (wafCount (disabledIn rsI p (disabledIn rsS p rule))
          = Nat.max 1 (wafCount rule)) as Hcount.
  { rewrite !disabledIn_count. repeat case_decide; try lia. tauto. }
  split_and!; try done.
  - by rewrite !disabledIn_name.
  - destruct (WAF.isWAFRule rule) eqn:Hw.
    { rewrite (disabledIn_waf rsS), (disabledIn_waf rsI) by done.
      by rewrite app_nil_r. }
    destruct (decide (p ∈ rsS)) as [HS|HS].
    + rewrite (disabledIn_waf rsI) by by apply disabledIn_is_waf.
      unfold disabledIn. by rewrite decide_True, Hw.
    + assert (disabledIn rsS p rule = rule) as ->
        by (unfold disabledIn; by rewrite decide_False).
      destruct Hp as [?|HI]; [done|].
      unfold disabledIn. by rewrite decide_True, Hw.
  - lia.
Qed.

(** The synthetic trailing rule comes out of the scans as it went in. *)
Lemma scans_keep_trailing rsS rsI (store : list as3Rule) :
  imap (disabledIn rsI) (imap (disabledIn rsS) (store ++ [WAF.wafDisableRule]))
    !! length store = Some WAF.wafDisableRule.
Proof.
  rewrite !list_lookup_imap, lookup_app_r, Nat.sub_diag by lia. simpl.
  by rewrite (disabledIn_waf rsS), (disabledIn_waf rsI) by reflexivity.
Qed.

(** The state of a touched policy after the stage. *)
Lemma touched_secure_after secureEP insecureEP isInsecure n app ep :
  secureEP = Some ep →
  WAF.lookupPolicy WAF.secureName
    (withTrailingRule WAF.insecureName isInsecure insecureEP n
       (withTrailingRule WAF.secureName true secureEP n app))
  = Some {| Rules := Rules ep ++ [n] |}.
Proof.
  intros ->. unfold withTrailingRule.
  destruct isInsecure, insecureEP as [epI|];
    rewrite ?lookupPolicy_insert_ne by (apply not_eq_sym, names_differ);
    apply lookupPolicy_insert.
Qed.

Lemma touched_insecure_after secureEP insecureEP isSecure n app ep :
  insecureEP = Some ep →
  WAF.lookupPolicy WAF.insecureName
    (withTrailingRule WAF.insecureName true insecureEP n
       (withTrailingRule WAF.secureName isSecure secureEP n app))
  = Some {| Rules := Rules ep ++ [n] |}.
Proof. intros ->. unfold withTrailingRule at 1. apply lookupPolicy_insert. Qed.

Lemma touchedBy_Some ep exposes records :
  touchedBy ep exposes records = true → ∃ ep', ep = Some ep'.
Proof. destruct ep; [by eexists|done]. Qed.

(** The stage on a tree whose rule pointers are in the store, in closed
    form: the loop returns a state [l], and the result is read off from it. *)
Lemma processF5ResourcesForAS3_spec am st :
  rulesAllocated st →
  let secureEP := WAF.lookupPolicy WAF.secureName (sharedApp st) in
  let insecureEP := WAF.lookupPolicy WAF.insecureName (sharedApp st) in
  ∃ l, WAF.updateRulesWithWAF secureEP insecureEP (IntF5Res am) st = Some l ∧
    sharedApp (WAF.pass l) = sharedApp st ∧
    length (ruleStore (WAF.pass l)) = length (ruleStore st) ∧
    WAF.isSecureWAF l = touchedBy secureEP exposesSecure (exposureRecords am) ∧
    WAF.isInsecureWAF l = touchedBy insecureEP exposesInsecure (exposureRecords am) ∧
    let n := length (ruleStore (WAF.pass l)) in
    WAF.processF5ResourcesForAS3 am st =
    Some {| sharedApp :=
              withTrailingRule WAF.insecureName (WAF.isInsecureWAF l) insecureEP n
                (withTrailingRule WAF.secureName (WAF.isSecureWAF l) secureEP n
                   (sharedApp st));
            ruleStore :=
              imap (disabledIn (scanned (WAF.isInsecureWAF l) insecureEP n))
                (imap (disabledIn (scanned (WAF.isSecureWAF l) secureEP n))
                   (storeBeforeScan l));
            diagnostics := diagnostics (WAF.pass l) |}.
Proof.
  intros Hrs secureEP insecureEP. subst secureEP insecureEP.
  destruct (updateRulesWithWAF_total am st Hrs) as (l & Hl & Happ & Hlen & HS & HI).
  exists l. split_and!; try done.
  intros n. unfold WAF.processF5ResourcesForAS3.
  rewrite Hl. simpl.
  rewrite finishWAF_spec.
  - fold n. by rewrite Happ.
  - unfold rulesAllocated in Hrs. by rewrite Hlen.
Qed.

End waf_stage.

Section waf_claims.
Import Spec.

(** C1, as the code has it: on a tree whose rule pointers are in the store,
    the WAF injection stage returns, and for every policy marked touched
    (secure or insecure) every rule of the policy after the stage, the
    synthetic trailing rule included, carries at least one WAF action: the
    loop over the exposure records only appends WAF-enable actions to the
    rules, and the scan then appends one WAF-disable action to each rule
    that has no WAF action when the scan starts and leaves the others, so a
    rule ends with exactly one WAF action unless it carried two or more
    before the scan. *)
Theorem waf_decision_on_every_rule (am : AS3Manager) (st : PassState) :
  rulesAllocated st →
  ∃ l st',
    WAF.updateRulesWithWAF (WAF.lookupPolicy WAF.secureName (sharedApp st))
      (WAF.lookupPolicy WAF.insecureName (sharedApp st)) (IntF5Res am) st = Some l ∧
    WAF.processF5ResourcesForAS3 am st = Some st' ∧
    enabledFrom (ruleStore st) (ruleStore (WAF.pass l)) ∧
    (WAF.isSecureWAF l = true →
     ∃ ep', WAF.lookupPolicy WAF.secureName (sharedApp st') = Some ep' ∧
            wafDecided (storeBeforeScan l) (ruleStore st') ep') ∧
    (WAF.isInsecureWAF l = true →
     ∃ ep', WAF.lookupPolicy WAF.insecureName (sharedApp st') = Some ep' ∧
            wafDecided (storeBeforeScan l) (ruleStore st') ep').
Proof.
  intros Hrs.
  destruct (processF5ResourcesForAS3_spec am st Hrs)
    as (l & Hl & Happ & Hlen & HS & HI & Hst').
  apply Forall_app in Hrs as [HrsS HrsI]. rewrite <-Hlen in HrsS, HrsI.
  assert (length (storeBeforeScan l) = S (length (ruleStore (WAF.pass l)))) as HlenB.
  { unfold storeBeforeScan. rewrite length_app. simpl. lia. }
  eexists l, _. split_and!; [exact Hl|exact Hst'|..].
  - by eapply updateRulesWithWAF_enables.
  - intros Htouched. rewrite Htouched in *. symmetry in HS.
    destruct (touchedBy_Some _ _ _ HS) as [ep Hep].
    exists {| Rules := Rules ep ++ [length (ruleStore (WAF.pass l))] |}.
    split; [by apply touched_secure_after|].
    intros p Hp. simpl in *. apply scans_decide.
    + left. by rewrite Hep.
    + rewrite HlenB. rewrite Hep in HrsS. simpl in HrsS.
      apply elem_of_app in Hp as [Hp|Hp%list_elem_of_singleton]; [|lia].
      rewrite Forall_forall in HrsS. specialize (HrsS p Hp). simpl in HrsS. lia.
  - intros Htouched. rewrite Htouched in *. symmetry in HI.
    destruct (touchedBy_Some _ _ _ HI) as [ep Hep].
    exists {| Rules := Rules ep ++ [length (ruleStore (WAF.pass l))] |}.
    split; [by apply touched_insecure_after|].
    intros p Hp. simpl in *. apply scans_decide.
    + right. by rewrite Hep.
    + rewrite HlenB. rewrite Hep in HrsI. simpl in HrsI.
      apply elem_of_app in Hp as [Hp|Hp%list_elem_of_singleton]; [|lia].
      rewrite Forall_forall in HrsI. specialize (HrsI p Hp). simpl in HrsI. lia.
Qed.

Lemma waf_decision_on_every_rule_witness :
  let am := Examples.exposures [("ns", [Examples.exposure "r1" HTTPANDS])] in
  let st := Examples.twoPolicies in
  rulesAllocated st ∧
  ∃ l st',
    WAF.updateRulesWithWAF (WAF.lookupPolicy WAF.secureName (sharedApp st))
      (WAF.lookupPolicy WAF.insecureName (sharedApp st)) (IntF5Res am) st = Some l ∧
    WAF.processF5ResourcesForAS3 am st = Some st' ∧
    enabledFrom (ruleStore st) (ruleStore (WAF.pass l)) ∧
    (WAF.isSecureWAF l = true →
     ∃ ep', WAF.lookupPolicy WAF.secureName (sharedApp st') = Some ep' ∧
            wafDecided (storeBeforeScan l) (ruleStore st') ep') ∧
    (WAF.isInsecureWAF l = true →
     ∃ ep', WAF.lookupPolicy WAF.insecureName (sharedApp st') = Some ep' ∧
            wafDecided (storeBeforeScan l) (ruleStore st') ep').
Proof.
  intros am st.
  assert (rulesAllocated st) as Hrs by solve_allocated.
  split; [exact Hrs|]. exact (waf_decision_on_every_rule am st Hrs).
Defined.

(** C1, as the claim has it, fails: two exposure records, of two resource
    groups, that name the same rule of the secure policy leave that rule of
    the touched policy with two WAF actions. *)
Lemma rule_with_two_waf_actions :
  let am := Examples.exposures
              [("ns1", [Examples.exposure "r1" HTTPS]);
               ("ns2", [Examples.exposure "r1" HTTPANDS])] in
  let st := Examples.twoPolicies in
  touchedBy (WAF.lookupPolicy WAF.secureName (sharedApp st)) exposesSecure
    (exposureRecords am) = true ∧
  ∃ st', WAF.processF5ResourcesForAS3 am st = Some st' ∧
    WAF.lookupPolicy WAF.secureName (sharedApp st') = Some {| Rules := [0; 2] |} ∧
    ruleStore st' !! 0 =
      Some {| Name := "r1";
              Actions := [WAF.wafEnableAction; WAF.wafEnableAction] |} ∧
    wafCount <$> ruleStore st' !! 0 = Some 2.
Proof.
  intros am st. split; [reflexivity|].
  eexists. split; [reflexivity|]. split_and!; reflexivity.
Qed.

(** C4: on a tree whose rule pointers are in the store, the stage returns; a
    policy is marked touched exactly when it is there and some record
    exposes it; the rules of a touched policy after the stage are its rules
    before the stage followed by one pointer, which is new, is the last, and
    points to the synthetic rule: a drop-on-request action followed by a
    WAF-disable action. *)
Theorem trailing_rule_once_and_last (am : AS3Manager) (st : PassState) :
  rulesAllocated st →
  ∃ l st',
    WAF.updateRulesWithWAF (WAF.lookupPolicy WAF.secureName (sharedApp st))
      (WAF.lookupPolicy WAF.insecureName (sharedApp st)) (IntF5Res am) st = Some l ∧
    WAF.processF5ResourcesForAS3 am st = Some st' ∧
    WAF.isSecureWAF l =
      touchedBy (WAF.lookupPolicy WAF.secureName (sharedApp st)) exposesSecure
        (exposureRecords am) ∧
    WAF.isInsecureWAF l =
      touchedBy (WAF.lookupPolicy WAF.insecureName (sharedApp st)) exposesInsecure
        (exposureRecords am) ∧
    ∃ n,
      ruleStore st' !! n =
        Some {| Name := "openshift_route_waf_disable";
                Actions := [ {| Type_ := "drop"; Event := "request"; Enabled := None |};
                             {| Type_ := "waf"; Event := ""; Enabled := Some false |} ] |} ∧
      (WAF.isSecureWAF l = true →
       ∃ ep ep', WAF.lookupPolicy WAF.secureName (sharedApp st) = Some ep ∧
         WAF.lookupPolicy WAF.secureName (sharedApp st') = Some ep' ∧
         Rules ep' = Rules ep ++ [n] ∧ (n ∉ Rules ep) ∧ last (Rules ep') = Some n) ∧
      (WAF.isInsecureWAF l = true →
       ∃ ep ep', WAF.lookupPolicy WAF.insecureName (sharedApp st) = Some ep ∧
         WAF.lookupPolicy WAF.insecureName (sharedApp st') = Some ep' ∧
         Rules ep' = Rules ep ++ [n] ∧ (n ∉ Rules ep) ∧ last (Rules ep') = Some n).
Proof.
  intros Hrs.
  destruct (processF5ResourcesForAS3_spec am st Hrs)
    as (l & Hl & Happ & Hlen & HS & HI & Hst').
  apply Forall_app in Hrs as [HrsS HrsI]. rewrite <-Hlen in HrsS, HrsI.
  eexists l, _. split_and!; [exact Hl|exact Hst'|exact HS|exact HI|].
  exists (length (ruleStore (WAF.pass l))). split_and!.
  - simpl. apply scans_keep_trailing.
  - intros Htouched. rewrite Htouched in *. symmetry in HS.
    destruct (touchedBy_Some _ _ _ HS) as [ep Hep].
    exists ep, {| Rules := Rules ep ++ [length (ruleStore (WAF.pass l))] |}.
    split_and!; [done|by apply touched_secure_after|done| |apply last_snoc].
    rewrite Hep in HrsS. simpl in HrsS. rewrite Forall_forall in HrsS.
    intros Hin. specialize (HrsS _ Hin). simpl in HrsS. lia.
  - intros Htouched. rewrite Htouched in *. symmetry in HI.
    destruct (touchedBy_Some _ _ _ HI) as [ep Hep].
    exists ep, {| Rules := Rules ep ++ [length (ruleStore (WAF.pass l))] |}.
    split_and!; [done|by apply touched_insecure_after|done| |apply last_snoc].
    rewrite Hep in HrsI. simpl in HrsI. rewrite Forall_forall in HrsI.
    intros Hin. specialize (HrsI _ Hin). simpl in HrsI. lia.
Qed.

Lemma trailing_rule_once_and_last_witness :
  let am := Examples.exposures [("ns", [Examples.exposure "r1" HTTPANDS])] in
  let st := Examples.twoPolicies in
  rulesAllocated st ∧
  ∃ l st',
    WAF.updateRulesWithWAF (WAF.lookupPolicy WAF.secureName (sharedApp st))
      (WAF.lookupPolicy WAF.insecureName (sharedApp st)) (IntF5Res am) st = Some l ∧
    WAF.processF5ResourcesForAS3 am st = Some st' ∧
    WAF.isSecureWAF l =
      touchedBy (WAF.lookupPolicy WAF.secureName (sharedApp st)) exposesSecure
        (exposureRecords am) ∧
    WAF.isInsecureWAF l =
      touchedBy (WAF.lookupPolicy WAF.insecureName (sharedApp st)) exposesInsecure
        (exposureRecords am) ∧
    ∃ n,
      ruleStore st' !! n =
        Some {| Name := "openshift_route_waf_disable";
                Actions := [ {| Type_ := "drop"; Event := "request"; Enabled := None |};
                             {| Type_ := "waf"; Event := ""; Enabled := Some false |} ] |} ∧
      (WAF.isSecureWAF l = true →
       ∃ ep ep', WAF.lookupPolicy WAF.secureName (sharedApp st) = Some ep ∧
         WAF.lookupPolicy WAF.secureName (sharedApp st') = Some ep' ∧
         Rules ep' = Rules ep ++ [n] ∧ (n ∉ Rules ep) ∧ last (Rules ep') = Some n) ∧
      (WAF.isInsecureWAF l = true →
       ∃ ep ep', WAF.lookupPolicy WAF.insecureName (sharedApp st) = Some ep ∧
         WAF.lookupPolicy WAF.insecureName (sharedApp st') = Some ep' ∧
         Rules ep' = Rules ep ++ [n] ∧ (n ∉ Rules ep) ∧ last (Rules ep') = Some n).
Proof.
  intros am st.
  assert (rulesAllocated st) as Hrs by solve_allocated.
  split; [exact Hrs|]. exact (trailing_rule_once_and_last am st Hrs).
Defined.

End waf_claims.

Section waf_records.
Import Spec.

Lemma forEach_app {A S} (body : S → A → option S) (l1 l2 : list A) : ∀ s,
  WAF.forEach body s (l1 ++ l2) =
  WAF.forEach body s l1 ≫= λ s', WAF.forEach body s' l2.
Proof.
  induction l1 as [|x l1 IH]; intros s; simpl; [done|].
  destruct (body s x) as [s'|]; simpl; [apply IH|done].
Qed.



(** C2, as the code has it: the handling of an exposure record that names no
    rule of the policies it targets returns, creates no rule and changes no
    rule and no policy (the shared application and the rule store are as
    before); it still marks each targeted policy that is there as touched. *)
Theorem record_naming_missing_rule (secureEP insecureEP : option as3EndpointPolicy)
    (l : WAF.LoopState) (rec : Record_.t) (res : F5Resources.t) :
  (∀ ep, secureEP = Some ep → exposesSecure (rec, res) = true →
     namesNoRule rec ep (ruleStore (WAF.pass l))) →
  (∀ ep, insecureEP = Some ep → exposesInsecure (rec, res) = true →
     namesNoRule rec ep (ruleStore (WAF.pass l))) →
  ∃ l', WAF.handleRecord secureEP insecureEP l (rec, res) = Some l' ∧
    sharedApp (WAF.pass l') = sharedApp (WAF.pass l) ∧
    ruleStore (WAF.pass l') = ruleStore (WAF.pass l) ∧
    WAF.isSecureWAF l' =
      WAF.isSecureWAF l || touchedBy secureEP exposesSecure [(rec, res)] ∧
    WAF.isInsecureWAF l' =
      WAF.isInsecureWAF l || touchedBy insecureEP exposesInsecure [(rec, res)].
Proof.
  intros HS HI. destruct res as [virtual].
  unfold WAF.handleRecord, WAF.secureHandling, WAF.insecureHandling,
    exposesSecure, exposesInsecure in *. simpl in *.
  destruct virtual, secureEP as [epS|], insecureEP as [epI|]; simpl;
    rewrite ?updatePolicyWithWAF_missing by eauto; simpl;
    rewrite ?updatePolicyWithWAF_missing by (simpl; eauto); simpl;
    eexists; (split; [done|]); simpl;
    by rewrite ?orb_true_r, ?orb_false_r.
Qed.

Lemma record_naming_missing_rule_witness :
  let secureEP := Some {| Rules := [0] |} in
  let insecureEP := Some {| Rules := [1] |} in
  let l := {| WAF.isSecureWAF := false; WAF.isInsecureWAF := false;
              WAF.pass := Examples.twoPolicies |} in
  let rec := Record_.mk "r9" in
  let res := F5Resources.mk HTTPS in
  (∀ ep, secureEP = Some ep → exposesSecure (rec, res) = true →
     namesNoRule rec ep (ruleStore (WAF.pass l))) ∧
  (∀ ep, insecureEP = Some ep → exposesInsecure (rec, res) = true →
     namesNoRule rec ep (ruleStore (WAF.pass l))) ∧
  ∃ l', WAF.handleRecord secureEP insecureEP l (rec, res) = Some l' ∧
    sharedApp (WAF.pass l') = sharedApp (WAF.pass l) ∧
    ruleStore (WAF.pass l') = ruleStore (WAF.pass l) ∧
    WAF.isSecureWAF l' =
      WAF.isSecureWAF l || touchedBy secureEP exposesSecure [(rec, res)] ∧
    WAF.isInsecureWAF l' =
      WAF.isInsecureWAF l || touchedBy insecureEP exposesInsecure [(rec, res)].
Proof.
  intros secureEP insecureEP l rec res.
  assert (∀ ep, secureEP = Some ep → exposesSecure (rec, res) = true →
            namesNoRule rec ep (ruleStore (WAF.pass l))) as HS.
  { intros ep [= <-] _. unfold namesNoRule. simpl.
    constructor; [|constructor]. eexists. split; [reflexivity|discriminate]. }
  assert (∀ ep, insecureEP = Some ep → exposesInsecure (rec, res) = true →
            namesNoRule rec ep (ruleStore (WAF.pass l))) as HI.
  { intros ep _ Hexp. discriminate Hexp. }
  split_and!; [exact HS|exact HI|].
  exact (record_naming_missing_rule secureEP insecureEP l rec res HS HI).
Defined.

(** C2, as the claim has it, fails: a pass whose only exposure record names
    a rule that the secure policy does not have changes the policy, which
    receives the trailing rule, and changes its rule "r1", which receives a
    WAF-disable action; the pass without the record changes neither. *)
Lemma missing_rule_record_changes_policy :
  let am := Examples.exposures [("ns", [Examples.exposure "r9" HTTPS])] in
  let st := Examples.twoPolicies in
  namesNoRule (Record_.mk "r9") {| Rules := [0] |} (ruleStore st) ∧
  WAF.lookupPolicy WAF.secureName (sharedApp st) = Some {| Rules := [0] |} ∧
  ruleStore st !! 0 = Some {| Name := "r1"; Actions := [] |} ∧
  (∃ st', WAF.processF5ResourcesForAS3 am st = Some st' ∧
     WAF.lookupPolicy WAF.secureName (sharedApp st') = Some {| Rules := [0; 2] |} ∧
     ruleStore st' !! 0 =
       Some {| Name := "r1"; Actions := [WAF.wafDisableAction] |} ∧
     ruleStore st' !! 2 = Some WAF.wafDisableRule) ∧
  (∃ st', WAF.processF5ResourcesForAS3 (Examples.exposures []) st = Some st' ∧
     WAF.lookupPolicy WAF.secureName (sharedApp st') = Some {| Rules := [0] |} ∧
     ruleStore st' !! 0 = Some {| Name := "r1"; Actions := [] |}).
Proof.
  intros am st. split_and!; try reflexivity.
  - constructor; [|constructor]. eexists. split; [reflexivity|discriminate].
  - eexists. split; [reflexivity|]. split_and!; reflexivity.
  - eexists. split; [reflexivity|]. split_and!; reflexivity.
Qed.



End waf_records.

(** ** Unsupported items *)
Section unsupported.
Import Spec.

Lemma handleRecord_other secureEP insecureEP l rec tag :
  WAF.handleRecord secureEP insecureEP l (rec, F5Resources.mk (VirtualOther tag))
  = Some l.
Proof. done. Qed.

Lemma updateRulesWithWAF_skips secureEP insecureEP groups1 groups2 ns
    records1 records2 rec tag st :
  WAF.updateRulesWithWAF secureEP insecureEP
    (groups1 ++
     (ns, records1 ++ (rec, F5Resources.mk (VirtualOther tag)) :: records2)
     :: groups2) st =
  WAF.updateRulesWithWAF secureEP insecureEP
    (groups1 ++ (ns, records1 ++ records2) :: groups2) st.
Proof.
  unfold WAF.updateRulesWithWAF.
  rewrite (forEach_app _ groups1 ((ns, records1 ++ _ :: records2) :: groups2)),
    (forEach_app _ groups1 ((ns, records1 ++ records2) :: groups2)).
  destruct (WAF.forEach _ _ groups1) as [l1|]; simpl; [|done].
  change (WAF.handleGroup secureEP insecureEP l1 (ns, records1 ++ records2))
    with (WAF.forEach (WAF.handleRecord secureEP insecureEP) l1
            (records1 ++ records2)).
  change (WAF.handleGroup secureEP insecureEP l1
            (ns, records1 ++ (rec, F5Resources.mk (VirtualOther tag)) :: records2))
    with (WAF.forEach (WAF.handleRecord secureEP insecureEP) l1
            (records1 ++ (rec, F5Resources.mk (VirtualOther tag)) :: records2)).
  rewrite (forEach_app _ records1 (_ :: records2)),
    (forEach_app _ records1 records2).
  by destruct (WAF.forEach _ l1 records1) as [l2|].
Qed.

(** C6, as the code has it. TLS attachment: a frontend of a resource kind
    other than Route and Ingress whose Service is in the tree changes
    nothing in the tree and writes one diagnostic, and the frontends after
    it are processed as usual; without a Service in the tree, the frontend
    is skipped without a diagnostic. WAF injection: an exposure record
    whose exposure is none of HTTP, HTTPS and HTTP-and-HTTPS is skipped
    without any diagnostic: it leaves the state of the loop as it is, and
    the stage gives the same result as without the record. *)
Theorem unsupported_items_skipped (env : Env) (st : PassState)
    (svcName : string) (cfg : ResourceConfig.t) (tag : string) :
  MetaData.ResourceType (ResourceConfig.MetaData cfg) = ResourceTypeOther tag →
  (∀ svc ua before after groups,
     sharedApp st !! TLS.serviceKey env svcName cfg = Some (ObjService svc) →
     TLS.processProfilesForAS3 env
       {| userAgent := ua; RsMap := before ++ (svcName, cfg) :: after;
          IntF5Res := groups |} st =
     foldl (TLS.processFrontend env)
       (TLS.logWarning (UnsupportedResourceType (ResourceTypeOther tag))
          (foldl (TLS.processFrontend env) st before))
       after) ∧
  (∀ st0, sharedApp st0 !! TLS.serviceKey env svcName cfg = None →
     TLS.processFrontend env st0 (svcName, cfg) = st0) ∧
  (∀ secureEP insecureEP l rec n,
     WAF.handleRecord secureEP insecureEP l (rec, F5Resources.mk (VirtualOther n))
     = Some l) ∧
  (∀ ua rs groups1 groups2 ns records1 records2 rec n,
     WAF.processF5ResourcesForAS3
       {| userAgent := ua; RsMap := rs;
          IntF5Res :=
            groups1 ++
            (ns, records1 ++ (rec, F5Resources.mk (VirtualOther n)) :: records2)
            :: groups2 |} st =
     WAF.processF5ResourcesForAS3
       {| userAgent := ua; RsMap := rs;
          IntF5Res := groups1 ++ (ns, records1 ++ records2) :: groups2 |} st).
Proof.
  intros Hty. split_and!.
  - intros svc ua before after groups Hsvc.
    unfold TLS.processProfilesForAS3. simpl. rewrite foldl_app. simpl. f_equal.
    destruct (foldl_processFrontend_keeps env before st _ svc Hsvc)
      as (svc1 & Hsvc1 & _).
    generalize dependent (foldl (TLS.processFrontend env) st before).
    intros st1 Hsvc1. unfold TLS.processFrontend. by rewrite Hsvc1, Hty.
  - intros st0 Hnone. unfold TLS.processFrontend. by rewrite Hnone.
  - intros. apply handleRecord_other.
  - intros. unfold WAF.processF5ResourcesForAS3. simpl.
    by rewrite updateRulesWithWAF_skips.
Qed.

Lemma unsupported_items_skipped_witness :
  let env := Examples.plainEnv "k8s" in
  let st := Examples.oneService Examples.httpService in
  let cfg := Examples.otherConfig "configmap" in
  MetaData.ResourceType (ResourceConfig.MetaData cfg) = ResourceTypeOther "configmap" ∧
  sharedApp st !! TLS.serviceKey env "web" cfg = Some (ObjService Examples.httpService) ∧
  TLS.processProfilesForAS3 env
    {| userAgent := "k8s-bigip-ctlr"; RsMap := [] ++ ("web", cfg) :: [];
       IntF5Res := [] |} st =
  foldl (TLS.processFrontend env)
    (TLS.logWarning (UnsupportedResourceType (ResourceTypeOther "configmap"))
       (foldl (TLS.processFrontend env) st []))
    [].
Proof.
  intros env st cfg. split_and!; [reflexivity|reflexivity|].
  exact (proj1 (unsupported_items_skipped env st "web" cfg "configmap" eq_refl)
           Examples.httpService "k8s-bigip-ctlr" [] [] [] eq_refl).
Defined.

(** C6, as the claim has it, fails: the WAF injection stage run on an
    exposure record of an unknown exposure value returns without having
    written any diagnostic. *)
Lemma unknown_exposure_without_diagnostic :
  let am := Examples.exposures [("ns", [Examples.exposure "r1" (VirtualOther 7)])] in
  let st := Examples.twoPolicies in
  diagnostics st = [] ∧
  ∃ st', WAF.processF5ResourcesForAS3 am st = Some st' ∧ diagnostics st' = [].
Proof.
  intros am st. split; [reflexivity|]. eexists. split; reflexivity.
Qed.

End unsupported.

(** ** Declaration assembly *)
Section assembly.

(** C7: when the declaration is generated for an empty default partition,
    the assembly returns a configuration whose override payload is empty,
    whatever payload came with the pass; the declaration it carries is the
    generated one under the "controls" header. *)
Theorem override_discarded_on_empty_partition (env : Env) (am : AS3Manager)
    (routeCfg : Assembly.AS3Config) (adc : Assembly.as3ADC) :
  Assembly.generateAS3ResourceDeclaration env am = Some adc →
  DEFAULT_PARTITION env = "" →
  ∃ routeCfg',
    Assembly.prepareAS3ResourceConfig env am routeCfg = Some routeCfg' ∧
    Assembly.Data (Assembly.overrideConfigmap routeCfg') = "" ∧
    Assembly.declared (Assembly.adc routeCfg') = Assembly.declared adc ∧
    Assembly.controls (Assembly.adc routeCfg') =
      Some {| Assembly.controlUserAgent := userAgent am |}.
Proof.
  intros Hgen Hpart.
  assert (Assembly.partition adc = "") as Hempty.
  { unfold Assembly.generateAS3ResourceDeclaration in Hgen.
    destruct (WAF.processF5ResourcesForAS3 _ _); simpl in Hgen; [|done].
    injection Hgen as <-. simpl. exact Hpart. }
  unfold Assembly.prepareAS3ResourceConfig. rewrite Hgen. simpl.
  unfold Assembly.isDefaultAS3PartitionEmpty. simpl.
  rewrite bool_decide_eq_true_2 by done. by eexists.
Qed.

Lemma override_discarded_on_empty_partition_witness :
  let env := Examples.plainEnv "" in
  let am := Examples.frontends [] in
  let routeCfg :=
    {| Assembly.adc := Assembly.initDefault "";
       Assembly.overrideConfigmap := {| Assembly.Data := "{}" |} |} in
  Assembly.generateAS3ResourceDeclaration env am =
    Some {| Assembly.partition := "";
            Assembly.declared :=
              {| sharedApp := ∅; ruleStore := [WAF.wafDisableRule];
                 diagnostics := [] |};
            Assembly.controls := None |} ∧
  DEFAULT_PARTITION env = "" ∧
  ∃ routeCfg',
    Assembly.prepareAS3ResourceConfig env am routeCfg = Some routeCfg' ∧
    Assembly.Data (Assembly.overrideConfigmap routeCfg') = "" ∧
    Assembly.declared (Assembly.adc routeCfg') =
      {| sharedApp := ∅; ruleStore := [WAF.wafDisableRule]; diagnostics := [] |} ∧
    Assembly.controls (Assembly.adc routeCfg') =
      Some {| Assembly.controlUserAgent := userAgent am |}.
Proof.
  intros env am routeCfg. split_and!; [reflexivity|reflexivity|].
  exact (override_discarded_on_empty_partition env am routeCfg _ eq_refl eq_refl).
Defined.

(** With a partition name, the override is kept. *)
Lemma override_kept_on_named_partition (env : Env) (am : AS3Manager)
    (routeCfg : Assembly.AS3Config) (adc : Assembly.as3ADC) :
  Assembly.generateAS3ResourceDeclaration env am = Some adc →
  DEFAULT_PARTITION env ≠ "" →
  ∃ routeCfg',
    Assembly.prepareAS3ResourceConfig env am routeCfg = Some routeCfg' ∧
    Assembly.overrideConfigmap routeCfg' = Assembly.overrideConfigmap routeCfg.
Proof.
  intros Hgen Hpart.
  assert (Assembly.partition adc ≠ "") as Hnamed.
  { unfold Assembly.generateAS3ResourceDeclaration in Hgen.
    destruct (WAF.processF5ResourcesForAS3 _ _); simpl in Hgen; [|done].
    injection Hgen as <-. simpl. exact Hpart. }
  unfold Assembly.prepareAS3ResourceConfig. rewrite Hgen. simpl.
  unfold Assembly.isDefaultAS3PartitionEmpty. simpl.
  rewrite bool_decide_eq_false_2 by done. by eexists.
Qed.

End assembly.

(** * Further properties of the stages *)

(** ** TLS attachment: what the two readers write *)
Section tls_results.
Import Spec Behaviour.

Lemma ingress_server_pointers (l : list ProfileRef.t) :
  omap clientTLSOf (classifyIngress <$> l) =
  resourcePointer <$> filter isSharedServer l.
Proof.
  induction l as [|p l IH]; [done|].
  rewrite fmap_cons, filter_cons.
  destruct (decide (isSharedServer p)) as [[HP HC]|Hn].
  - unfold classifyIngress at 1. rewrite decide_True, HC by done.
    simpl. f_equal. exact IH.
  - assert (clientTLSOf (classifyIngress p) = None) as Hnone.
    { unfold classifyIngress. case_decide as HP; [|done].
      destruct (ProfileRef.Context p) eqn:HC; try done.
      by destruct Hn. }
    simpl. rewrite Hnone. exact IH.
Qed.

Lemma route_client_pointers (l : list (RouteKey.t * string)) :
  omap serverTLSOf (classifyRoute <$> l) = routePointer <$> filter isRouteClient l.
Proof.
  induction l as [|[key val] l IH]; [done|].
  rewrite fmap_cons, filter_cons.
  destruct (decide (isRouteClient (key, val))) as [H|H];
    unfold isRouteClient in H; simpl in H.
  - unfold classifyRoute at 1. simpl. rewrite H. simpl. f_equal. exact IH.
  - assert (serverTLSOf (classifyRoute (key, val)) = None) as Hnone.
    { unfold classifyRoute. simpl. by destruct (RouteKey.Context key). }
    simpl. rewrite Hnone. exact IH.
Qed.

Lemma route_server_pointers (l : list (RouteKey.t * string)) :
  omap clientTLSOf (classifyRoute <$> l) = routePointer <$> filter isRouteServer l.
Proof.
  induction l as [|[key val] l IH]; [done|].
  rewrite fmap_cons, filter_cons.
  destruct (decide (isRouteServer (key, val))) as [H|H];
    unfold isRouteServer in H; simpl in H.
  - unfold classifyRoute at 1. simpl. rewrite H. simpl. f_equal. exact IH.
  - assert (clientTLSOf (classifyRoute (key, val)) = None) as Hnone.
    { unfold classifyRoute. simpl. by destruct (RouteKey.Context key). }
    simpl. rewrite Hnone. exact IH.
Qed.

Lemma existsb_isWritten_false (es : list TLSEntry) :
  existsb isWritten es = false ↔
  omap serverTLSOf es = [] ∧ omap clientTLSOf es = [].
Proof.
  induction es as [|[p|p|] es IH]; simpl; [done| | |exact IH];
    split; try done; by intros [? ?].
Qed.

(** In the Ingress-style path the last server-context entry of the shared
    partition wins ClientTLS; without such an entry ClientTLS is left as it
    was. The protocol is HTTPS as soon as the shared partition has a client or
    a server entry, and is left as it was otherwise. *)
Theorem ingress_clientTLS_last_wins (virtual : Virtual.t) (svc : as3Service) :
  let svc' := TLS.processIngressTLSProfilesForAS3 virtual svc in
  ClientTLS svc' =
    match last (filter isSharedServer (Virtual.Profiles virtual)) with
    | Some profile => Some (resourcePointer profile)
    | None => ClientTLS svc
    end ∧
  Protocol svc' =
    (if decide (filter isSharedClient (Virtual.Profiles virtual) = [] ∧
                filter isSharedServer (Virtual.Profiles virtual) = [])
     then Protocol svc else ServiceHTTPS).
Proof.
  intros svc'. unfold svc'. rewrite ingress_as_writer.
  destruct (writer_result (classifyIngress <$> Virtual.Profiles virtual) [] svc)
    as (_ & _ & -> & ->).
  rewrite ingress_server_pointers, fmap_last. split.
  - by destruct (last _).
  - destruct (existsb isWritten _) eqn:Hw.
    + rewrite decide_False; [done|]. intros [H1 H2].
      assert (existsb isWritten (classifyIngress <$> Virtual.Profiles virtual)
              = false) as Hf; [|congruence].
      apply existsb_isWritten_false.
      by rewrite ingress_client_pointers, ingress_server_pointers, H1, H2.
    + apply existsb_isWritten_false in Hw as [H1 H2].
      rewrite ingress_client_pointers in H1. rewrite ingress_server_pointers in H2.
      apply fmap_nil_inv in H1. apply fmap_nil_inv in H2.
      by rewrite decide_True.
Qed.

(** The Route-style path, for a given visiting order of [RouteProfs]:
    ServerTLS becomes the values of the client-context entries in the order
    visited, when there is one; ClientTLS the value of the server-context
    entry visited last, when there is one; the protocol HTTPS, when there is
    either. Fields for which the map has no entry are left as they were. *)
Theorem route_tls_result (ty : ResourceType) (visit : list (RouteKey.t * string))
    (svc : as3Service) :
  let svc' := TLS.processRouteTLSProfilesForAS3 (MetaData.mk ty visit) svc in
  ServerTLS svc' =
    (if decide (filter isRouteClient visit = []) then ServerTLS svc
     else routePointer <$> filter isRouteClient visit) ∧
  ClientTLS svc' =
    match last (filter isRouteServer visit) with
    | Some entry => Some (routePointer entry)
    | None => ClientTLS svc
    end ∧
  Protocol svc' =
    (if decide (filter isRouteClient visit = [] ∧ filter isRouteServer visit = [])
     then Protocol svc else ServiceHTTPS).
Proof.
  intros svc'. unfold svc'. rewrite route_as_writer. simpl.
  destruct (writer_result (classifyRoute <$> visit) [] svc) as (_ & -> & -> & ->).
  rewrite route_client_pointers, route_server_pointers, fmap_last. split_and!.
  - by destruct (filter isRouteClient visit).
  - by destruct (last _).
  - destruct (existsb isWritten _) eqn:Hw.
    + rewrite decide_False; [done|]. intros [H1 H2].
      assert (existsb isWritten (classifyRoute <$> visit) = false) as Hf;
        [|congruence].
      apply existsb_isWritten_false.
      by rewrite route_client_pointers, route_server_pointers, H1, H2.
    + apply existsb_isWritten_false in Hw as [H1 H2].
      rewrite route_client_pointers in H1. rewrite route_server_pointers in H2.
      apply fmap_nil_inv in H1. apply fmap_nil_inv in H2.
      by rewrite decide_True.
Qed.

(** The two readers agree: a profile list whose entries are all of the
    shared partition gives, through the Ingress-style path, the Service
    that the Route-style path gives for the map that holds the same contexts
    with the paths of the profiles as values. *)
Theorem ingress_and_route_paths_agree (ty : ResourceType) (namespace : string)
    (profiles : list ProfileRef.t) (svc : as3Service) :
  Forall (λ profile, ProfileRef.Partition profile = "Common") profiles →
  TLS.processIngressTLSProfilesForAS3 (Virtual.mk profiles) svc =
  TLS.processRouteTLSProfilesForAS3
    (MetaData.mk ty (asRouteEntry namespace <$> profiles)) svc.
Proof.
  intros Hcommon. rewrite ingress_as_writer, route_as_writer. simpl.
  do 2 f_equal. rewrite <-list_fmap_compose.
  apply Forall_fmap_ext_1. eapply Forall_impl; [exact Hcommon|].
  intros profile HP. unfold classifyIngress, classifyRoute, asRouteEntry. simpl.
  by rewrite decide_True.
Qed.

Lemma ingress_and_route_paths_agree_witness :
  let profiles := [Examples.clientProfile "Common" "clientssl";
                   Examples.serverProfile "Common" "serverssl";
                   Examples.allProfile "Common" "http"] in
  Forall (λ profile, ProfileRef.Partition profile = "Common") profiles ∧
  TLS.processIngressTLSProfilesForAS3 (Virtual.mk profiles) Examples.httpService =
  TLS.processRouteTLSProfilesForAS3
    (MetaData.mk ResourceTypeRoute (asRouteEntry "ns" <$> profiles))
    Examples.httpService.
Proof.
  intros profiles.
  assert (Forall (λ profile, ProfileRef.Partition profile = "Common") profiles)
    as Hcommon by (repeat constructor).
  split; [exact Hcommon|].
  exact (ingress_and_route_paths_agree ResourceTypeRoute "ns" profiles
           Examples.httpService Hcommon).
Defined.

End tls_results.

(** ** TLS attachment: what the stage leaves alone *)
Section tls_frame.
Import Spec Behaviour.
Context (env : Env).

(** What a frontend does, by the object under its key. *)
Lemma processFrontend_cases st svcName cfg :
  let key := TLS.serviceKey env svcName cfg in
  match sharedApp st !! key with
  | Some (ObjService svc) =>
      match MetaData.ResourceType (ResourceConfig.MetaData cfg) with
      | ResourceTypeOther tag =>
          TLS.processFrontend env st (svcName, cfg) =
          TLS.logWarning (UnsupportedResourceType (ResourceTypeOther tag)) st
      | _ =>
          ∃ svc', TLS.processFrontend env st (svcName, cfg) =
                  TLS.setSharedApp (<[key := ObjService svc']> (sharedApp st)) st
      end
  | _ => TLS.processFrontend env st (svcName, cfg) = st
  end.
Proof.
  intros key. unfold TLS.processFrontend. fold key.
  destruct (sharedApp st !! key) as [[svc| |]|]; try done.
  destruct (MetaData.ResourceType (ResourceConfig.MetaData cfg)); by eauto.
Qed.

Lemma processFrontend_frame st frontend :
  ruleStore (TLS.processFrontend env st frontend) = ruleStore st ∧
  diagnostics (TLS.processFrontend env st frontend) =
    diagnostics st ++ option_list (unsupportedWarning env (sharedApp st) frontend) ∧
  ∀ key,
    match sharedApp st !! key with
    | Some (ObjService _) =>
        ∃ svc', sharedApp (TLS.processFrontend env st frontend) !! key
                = Some (ObjService svc')
    | other => sharedApp (TLS.processFrontend env st frontend) !! key = other
    end.
Proof.
  destruct frontend as [svcName cfg].
  pose proof (processFrontend_cases st svcName cfg) as Hcases. cbv zeta in Hcases.
  unfold unsupportedWarning. cbn [fst snd].
  destruct (sharedApp st !! TLS.serviceKey env svcName cfg)
    as [[svc| |]|] eqn:Hkey.
  2-4: rewrite Hcases, app_nil_r; split_and!; try done;
       intros key; by destruct (sharedApp st !! key) as [[]|]; eauto.
  destruct (MetaData.ResourceType (ResourceConfig.MetaData cfg)) eqn:Hty.
  3: { rewrite Hcases. split_and!; try done.
       intros key. simpl. by destruct (sharedApp st !! key) as [[]|]; eauto. }
  all: destruct Hcases as [svc' ->]; simpl; rewrite app_nil_r;
    split_and!; try done; intros key;
    (destruct (decide (TLS.serviceKey env svcName cfg = key)) as [<-|Hne];
     [rewrite Hkey, lookup_insert_eq; by eauto
     |rewrite lookup_insert_ne by done;
      by destruct (sharedApp st !! key) as [[]|]; eauto]).
Qed.

(** The warning of a frontend only depends on which names hold a Service. *)
Lemma unsupportedWarning_same_kinds (app app' : gmap string as3Object) frontend :
  (∀ key,
     match app !! key with
     | Some (ObjService _) => ∃ svc', app' !! key = Some (ObjService svc')
     | other => app' !! key = other
     end) →
  unsupportedWarning env app' frontend = unsupportedWarning env app frontend.
Proof.
  intros Hkinds. unfold unsupportedWarning.
  specialize (Hkinds (TLS.serviceKey env frontend.1 frontend.2)).
  destruct (app !! _) as [[svc| |]|].
  - by destruct Hkinds as [svc' ->].
  - by rewrite Hkinds.
  - by rewrite Hkinds.
  - by rewrite Hkinds.
Qed.

Lemma omap_pointwise {A B} (f g : A → option B) (l : list A) :
  (∀ x, f x = g x) → omap f l = omap g l.
Proof.
  intros Hfg. induction l as [|x l IH]; [done|]. csimpl. by rewrite Hfg, IH.
Qed.

Lemma foldl_processFrontend_frame l : ∀ st,
  ruleStore (foldl (TLS.processFrontend env) st l) = ruleStore st ∧
  diagnostics (foldl (TLS.processFrontend env) st l) =
    diagnostics st ++ omap (unsupportedWarning env (sharedApp st)) l ∧
  ∀ key,
    match sharedApp st !! key with
    | Some (ObjService _) =>
        ∃ svc', sharedApp (foldl (TLS.processFrontend env) st l) !! key
                = Some (ObjService svc')
    | other => sharedApp (foldl (TLS.processFrontend env) st l) !! key = other
    end.
Proof.
  induction l as [|f l IH]; intros st; simpl.
  { rewrite app_nil_r. split_and!; try done.
    intros key. by destruct (sharedApp st !! key) as [[]|]; eauto. }
  destruct (processFrontend_frame st f) as (Hr1 & Hd1 & Hk1).
  destruct (IH (TLS.processFrontend env st f)) as (Hr2 & Hd2 & Hk2).
  split_and!.
  - congruence.
  - rewrite Hd2, Hd1, <-(assoc_L (++)). f_equal.
    rewrite (omap_pointwise _ (unsupportedWarning env (sharedApp st)) l)
      by (intros; by apply unsupportedWarning_same_kinds).
    by destruct (unsupportedWarning env (sharedApp st) f).
  - intros key. specialize (Hk1 key). specialize (Hk2 key).
    destruct (sharedApp st !! key) as [[svc| |]|].
    + destruct Hk1 as [svc1 Hk1]. by rewrite Hk1 in Hk2.
    + by rewrite Hk1 in Hk2.
    + by rewrite Hk1 in Hk2.
    + by rewrite Hk1 in Hk2.
Qed.

(** The TLS attachment stage creates no object and removes none: the names
    of the shared application are the same after the stage, a name that
    holds a Service still holds a Service, every other object is the same
    object, and the rules are as they were. A frontend whose Service is not
    in the tree gets none. *)
Theorem tls_stage_creates_nothing (am : AS3Manager) (st : PassState) :
  let st' := TLS.processProfilesForAS3 env am st in
  dom (sharedApp st') = dom (sharedApp st) ∧
  ruleStore st' = ruleStore st ∧
  ∀ key,
    match sharedApp st !! key with
    | Some (ObjService _) => ∃ svc', sharedApp st' !! key = Some (ObjService svc')
    | other => sharedApp st' !! key = other
    end.
Proof.
  intros st'. unfold st', TLS.processProfilesForAS3.
  destruct (foldl_processFrontend_frame (RsMap am) st) as (Hr & _ & Hk).
  split_and!; [|done|done].
  apply set_eq. intros key. rewrite !elem_of_dom. specialize (Hk key).
  destruct (sharedApp st !! key) as [[svc| |]|].
  - destruct Hk as [svc' ->]. split; by eauto.
  - by rewrite Hk.
  - by rewrite Hk.
  - by rewrite Hk.
Qed.

(** The diagnostics of the TLS attachment stage: one warning, in the order
    visited, for each frontend of another kind than Route and Ingress whose
    Service is in the tree before the stage, and nothing else. *)
Theorem tls_stage_diagnostics (am : AS3Manager) (st : PassState) :
  diagnostics (TLS.processProfilesForAS3 env am st) =
  diagnostics st ++ omap (unsupportedWarning env (sharedApp st)) (RsMap am).
Proof.
  unfold TLS.processProfilesForAS3.
  by destruct (foldl_processFrontend_frame (RsMap am) st) as (_ & Hd & _).
Qed.

Lemma writer_ignores es : ∀ acc,
  existsb isWritten es = false → foldl writeEntry acc es = acc.
Proof.
  induction es as [|[p|p|] es IH]; intros acc Hw; simpl in *; try done.
  by apply IH.
Qed.

Lemma processFrontend_without_entries st svcName cfg :
  existsb isWritten (tlsEntries cfg) = false →
  sharedApp (TLS.processFrontend env st (svcName, cfg)) = sharedApp st.
Proof.
  intros Hw. unfold TLS.processFrontend.
  destruct (sharedApp st !! TLS.serviceKey env svcName cfg)
    as [[svc| |]|] eqn:Hkey; try done.
  unfold tlsEntries in Hw.
  destruct (MetaData.ResourceType (ResourceConfig.MetaData cfg)); simpl.
  - rewrite route_as_writer, writer_ignores by done. simpl. by apply insert_id.
  - rewrite ingress_as_writer, writer_ignores by done. simpl. by apply insert_id.
  - done.
Qed.

(** Frontends without an entry that is written leave the whole shared
    application as it is: no Service is touched, whatever its protocol and
    its TLS pointers are. *)
Theorem tls_stage_without_entries (am : AS3Manager) (st : PassState) :
  Forall (λ frontend, existsb isWritten (tlsEntries frontend.2) = false) (RsMap am) →
  sharedApp (TLS.processProfilesForAS3 env am st) = sharedApp st.
Proof.
  unfold TLS.processProfilesForAS3. generalize (RsMap am). intros l.
  revert st. induction l as [|[svcName cfg] l IH]; intros st Hl; simpl; [done|].
  apply Forall_cons in Hl as [Hf Hl]. rewrite IH by done.
  by apply processFrontend_without_entries.
Qed.

End tls_frame.

Lemma tls_stage_without_entries_witness :
  let env := Examples.plainEnv "k8s" in
  let am := Examples.frontends
              [("web", Examples.ingressConfig
                         [Examples.clientProfile "tenant" "clientssl";
                          Examples.allProfile "Common" "http"])] in
  let st := Examples.oneService Examples.presetService in
  Forall (λ frontend, existsb Spec.isWritten (Spec.tlsEntries frontend.2) = false)
    (RsMap am) ∧
  sharedApp (TLS.processProfilesForAS3 env am st) = sharedApp st.
Proof.
  intros env am st.
  assert (Forall (λ frontend,
            existsb Spec.isWritten (Spec.tlsEntries frontend.2) = false) (RsMap am))
    as Hno by (repeat constructor).
  split; [exact Hno|]. exact (tls_stage_without_entries env am st Hno).
Defined.

(** ** TLS attachment: the order in which the frontends are visited *)
Section tls_order.
Import Spec Behaviour.
Context (env : Env).

Lemma processFrontend_closed_form st frontend :
  TLS.processFrontend env st frontend =
  {| sharedApp := appAfter env (sharedApp st) frontend;
     ruleStore := ruleStore st;
     diagnostics :=
       diagnostics st ++ option_list (unsupportedWarning env (sharedApp st) frontend) |}.
Proof.
  destruct frontend as [svcName cfg], st as [app rules diags].
  unfold TLS.processFrontend, appAfter, unsupportedWarning. simpl.
  destruct (app !! TLS.serviceKey env svcName cfg) as [[svc| |]|];
    simpl; rewrite ?app_nil_r; try done.
  destruct (MetaData.ResourceType (ResourceConfig.MetaData cfg));
    simpl; by rewrite ?app_nil_r.
Qed.

Lemma sameTree_refl st : sameTree st st.
Proof. by split_and!. Qed.

Lemma sameTree_trans st1 st2 st3 :
  sameTree st1 st2 → sameTree st2 st3 → sameTree st1 st3.
Proof.
  intros (A1 & B1 & C1) (A2 & B2 & C2). split_and!; try congruence.
  by rewrite C1.
Qed.

(** A frontend only reads the shared application of the state. *)
Lemma processFrontend_sameTree st1 st2 frontend :
  sameTree st1 st2 →
  sameTree (TLS.processFrontend env st1 frontend)
    (TLS.processFrontend env st2 frontend).
Proof.
  intros (Happ & Hrules & Hdiag). rewrite !processFrontend_closed_form.
  split_and!; simpl; [by rewrite Happ|done|by rewrite Happ, Hdiag].
Qed.

Lemma foldl_processFrontend_sameTree l : ∀ st1 st2,
  sameTree st1 st2 →
  sameTree (foldl (TLS.processFrontend env) st1 l)
    (foldl (TLS.processFrontend env) st2 l).
Proof.
  induction l as [|f l IH]; intros st1 st2 Hsame; simpl; [done|].
  by apply IH, processFrontend_sameTree.
Qed.

Lemma appAfter_lookup_ne app frontend key :
  TLS.serviceKey env frontend.1 frontend.2 ≠ key →
  appAfter env app frontend !! key = app !! key.
Proof.
  intros Hne. unfold appAfter.
  destruct (app !! TLS.serviceKey env frontend.1 frontend.2) as [[svc| |]|];
    try done.
  destruct (MetaData.ResourceType (ResourceConfig.MetaData frontend.2));
    by rewrite ?lookup_insert_ne.
Qed.

Lemma appAfter_comm app frontend1 frontend2 :
  TLS.serviceKey env frontend1.1 frontend1.2 ≠
  TLS.serviceKey env frontend2.1 frontend2.2 →
  appAfter env (appAfter env app frontend1) frontend2 =
  appAfter env (appAfter env app frontend2) frontend1.
Proof.
  intros Hne.
  unfold appAfter at 1 3.
  rewrite !appAfter_lookup_ne by done.
  unfold appAfter.
  destruct (app !! TLS.serviceKey env frontend1.1 frontend1.2) as [[svc1| |]|];
    destruct (app !! TLS.serviceKey env frontend2.1 frontend2.2) as [[svc2| |]|];
    try done;
    destruct (MetaData.ResourceType (ResourceConfig.MetaData frontend1.2));
    try done;
    destruct (MetaData.ResourceType (ResourceConfig.MetaData frontend2.2));
    try done;
    by rewrite insert_insert_ne.
Qed.

Lemma unsupportedWarning_appAfter_ne app frontend1 frontend2 :
  TLS.serviceKey env frontend1.1 frontend1.2 ≠
  TLS.serviceKey env frontend2.1 frontend2.2 →
  unsupportedWarning env (appAfter env app frontend1) frontend2 =
  unsupportedWarning env app frontend2.
Proof.
  intros Hne. unfold unsupportedWarning. by rewrite appAfter_lookup_ne.
Qed.

(** Two frontends with different keys can be processed in either order. *)
Lemma processFrontend_comm st frontend1 frontend2 :
  TLS.serviceKey env frontend1.1 frontend1.2 ≠
  TLS.serviceKey env frontend2.1 frontend2.2 →
  sameTree
    (TLS.processFrontend env (TLS.processFrontend env st frontend1) frontend2)
    (TLS.processFrontend env (TLS.processFrontend env st frontend2) frontend1).
Proof.
  intros Hne. rewrite !processFrontend_closed_form. simpl.
  split_and!; simpl.
  - by apply appAfter_comm.
  - done.
  - rewrite !unsupportedWarning_appAfter_ne by done.
    rewrite <-!(assoc_L (++)). apply Permutation_app_head, Permutation_app_comm.
Qed.

Lemma foldl_processFrontend_Permutation l1 l2 :
  l1 ≡ₚ l2 →
  NoDup ((λ frontend, TLS.serviceKey env frontend.1 frontend.2) <$> l1) →
  ∀ st1 st2, sameTree st1 st2 →
    sameTree (foldl (TLS.processFrontend env) st1 l1)
      (foldl (TLS.processFrontend env) st2 l2).
Proof.
  induction 1 as [|x l1 l2 Hperm IH|x y l|l1 l2 l3 Hperm1 IH1 Hperm2 IH2];
    intros Hnodup st1 st2 Hsame.
  - done.
  - simpl. rewrite fmap_cons in Hnodup. apply NoDup_cons in Hnodup as [_ Hnodup].
    by apply IH, processFrontend_sameTree.
  - simpl. rewrite !fmap_cons in Hnodup.
    apply NoDup_cons in Hnodup as [Hy _]. apply not_elem_of_cons in Hy as [Hyx _].
    apply foldl_processFrontend_sameTree.
    eapply sameTree_trans; [by apply processFrontend_comm|].
    by do 2 apply processFrontend_sameTree.
  - eapply sameTree_trans; [by apply IH1|].
    apply IH2; [|apply sameTree_refl]. by rewrite <-Hperm1.
Qed.

(** The order in which the range statement visits the frontends does not
    show in the tree, provided no two frontends share the key of their
    Service: two visits of one map [RsMap] give the same shared application
    and the same rules, and the same warnings up to their order. *)
Theorem tls_stage_frontend_order (ua : string) (groups : InternalF5ResourcesGroup)
    (visit1 visit2 : list (string * ResourceConfig.t)) (st : PassState) :
  visit1 ≡ₚ visit2 →
  NoDup ((λ frontend, TLS.serviceKey env frontend.1 frontend.2) <$> visit1) →
  sameTree
    (TLS.processProfilesForAS3 env
       {| userAgent := ua; RsMap := visit1; IntF5Res := groups |} st)
    (TLS.processProfilesForAS3 env
       {| userAgent := ua; RsMap := visit2; IntF5Res := groups |} st).
Proof.
  intros Hperm Hnodup. unfold TLS.processProfilesForAS3. simpl.
  apply foldl_processFrontend_Permutation; [done..|apply sameTree_refl].
Qed.

End tls_order.

Lemma tls_stage_frontend_order_witness :
  let env := Examples.plainEnv "k8s" in
  let visit1 := [("web", Examples.ingressConfig
                           [Examples.clientProfile "Common" "clientssl"]);
                 ("api", Examples.otherConfig "configmap")] in
  let visit2 := [("api", Examples.otherConfig "configmap");
                 ("web", Examples.ingressConfig
                           [Examples.clientProfile "Common" "clientssl"])] in
  let st := Examples.oneService Examples.httpService in
  visit1 ≡ₚ visit2 ∧
  NoDup ((λ frontend, TLS.serviceKey env frontend.1 frontend.2) <$> visit1) ∧
  Behaviour.sameTree
    (TLS.processProfilesForAS3 env
       {| userAgent := "k8s-bigip-ctlr"; RsMap := visit1; IntF5Res := [] |} st)
    (TLS.processProfilesForAS3 env
       {| userAgent := "k8s-bigip-ctlr"; RsMap := visit2; IntF5Res := [] |} st).
Proof.
  intros env visit1 visit2 st.
  assert (visit1 ≡ₚ visit2) as Hperm by apply Permutation_swap.
  assert (NoDup ((λ frontend, TLS.serviceKey env frontend.1 frontend.2) <$> visit1))
    as Hnodup by (apply (bool_decide_unpack _); by vm_compute).
  split_and!; [exact Hperm|exact Hnodup|].
  exact (tls_stage_frontend_order env "k8s-bigip-ctlr" [] visit1 visit2 st
           Hperm Hnodup).
Defined.

(** ** WAF injection: the scan alone *)
Section waf_scan_alone.
Import Spec Behaviour.





End waf_scan_alone.

(** ** WAF injection: what the stage leaves alone *)
Section waf_frame.
Import Spec Behaviour.

Lemma findRule_elem name rs store p :
  WAF.findRule name rs store = Some (Some p) → p ∈ rs.
Proof.
  induction rs as [|q rs IH]; cbn [WAF.findRule]; [done|].
  destruct (store !! q) as [rule|]; simpl; [|done].
  case_decide.
  - intros [= ->]. apply list_elem_of_here.
  - intros Hfind. by apply list_elem_of_further, IH.
Qed.

Lemma updatePolicyWithWAF_outside ep rec res st st' :
  WAF.updatePolicyWithWAF ep rec res st = Some st' →
  ∀ p, p ∉ Rules ep → ruleStore st' !! p = ruleStore st !! p.
Proof.
  unfold WAF.updatePolicyWithWAF. intros Hst' p Hp.
  destruct (WAF.findRule _ _ _) as [[q|]|] eqn:Hfind; simpl in Hst'; [| |done].
  - destruct (ruleStore st !! q) as [rule|]; simpl in Hst'; [|done].
    injection Hst' as <-. simpl. apply list_lookup_insert_ne.
    intros ->. by apply findRule_elem in Hfind.
  - by injection Hst' as <-.
Qed.

Lemma touchedRules_elem secureEP insecureEP records p :
  p ∈ touchedRules secureEP insecureEP records ↔
  (touchedBy secureEP exposesSecure records = true ∧ p ∈ policyRules secureEP) ∨
  (touchedBy insecureEP exposesInsecure records = true ∧ p ∈ policyRules insecureEP).
Proof.
  unfold touchedRules. rewrite elem_of_app.
  destruct (touchedBy secureEP _ _), (touchedBy insecureEP _ _);
    rewrite ?elem_of_nil; intuition congruence.
Qed.

Lemma touchedRules_app secureEP insecureEP records1 records2 p :
  p ∉ touchedRules secureEP insecureEP (records1 ++ records2) →
  (p ∉ touchedRules secureEP insecureEP records1) ∧
  (p ∉ touchedRules secureEP insecureEP records2).
Proof.
  rewrite !touchedRules_elem, !touchedBy_app, !orb_true_iff. tauto.
Qed.

Lemma handleRecord_outside secureEP insecureEP l entry l' :
  WAF.handleRecord secureEP insecureEP l entry = Some l' →
  ∀ p, p ∉ touchedRules secureEP insecureEP [entry] →
    ruleStore (WAF.pass l') !! p = ruleStore (WAF.pass l) !! p.
Proof.
  destruct entry as [rec [virtual]].
  unfold WAF.handleRecord, WAF.secureHandling, WAF.insecureHandling. simpl.
  intros Hl' p Hp. rewrite touchedRules_elem in Hp.
  unfold touchedBy, exposesSecure, exposesInsecure in Hp. simpl in Hp.
  destruct virtual, secureEP as [epS|], insecureEP as [epI|]; simpl in *;
    repeat match type of Hl' with
    | context [WAF.updatePolicyWithWAF ?ep ?rec ?res ?st] =>
        let H := fresh "Hupd" in
        destruct (WAF.updatePolicyWithWAF ep rec res st) eqn:H;
        simpl in Hl'; [|done];
        apply updatePolicyWithWAF_outside with (p := p) in H; [|intuition]
    end;
    injection Hl' as <-; simpl; congruence.
Qed.

Lemma forEach_handleRecord_outside secureEP insecureEP records : ∀ l l',
  WAF.forEach (WAF.handleRecord secureEP insecureEP) l records = Some l' →
  ∀ p, p ∉ touchedRules secureEP insecureEP records →
    ruleStore (WAF.pass l') !! p = ruleStore (WAF.pass l) !! p.
Proof.
  induction records as [|entry records IH]; intros l l' Hl' p Hp;
    cbn [WAF.forEach] in Hl'.
  { by injection Hl' as <-. }
  destruct (WAF.handleRecord _ _ l entry) as [l1|] eqn:Hl1; simpl in Hl'; [|done].
  apply (touchedRules_app _ _ [entry] records) in Hp as [Hp1 Hp2].
  rewrite (IH _ _ Hl' p Hp2). by eapply handleRecord_outside.
Qed.

Lemma forEach_handleGroup_outside secureEP insecureEP groups : ∀ l l',
  WAF.forEach (WAF.handleGroup secureEP insecureEP) l groups = Some l' →
  ∀ p, p ∉ touchedRules secureEP insecureEP (mjoin (snd <$> groups)) →
    ruleStore (WAF.pass l') !! p = ruleStore (WAF.pass l) !! p.
Proof.
  induction groups as [|[ns records] groups IH]; intros l l' Hl' p Hp;
    cbn [WAF.forEach] in Hl'.
  { by injection Hl' as <-. }
  change (WAF.handleGroup secureEP insecureEP l (ns, records))
    with (WAF.forEach (WAF.handleRecord secureEP insecureEP) l records) in Hl'.
  destruct (WAF.forEach (WAF.handleRecord _ _) l records) as [l1|] eqn:Hl1;
    simpl in Hl'; [|done].
  rewrite fmap_cons in Hp. simpl in Hp.
  apply touchedRules_app in Hp as [Hp1 Hp2].
  rewrite (IH _ _ Hl' p Hp2). by eapply forEach_handleRecord_outside.
Qed.

Lemma updateRulesWithWAF_outside_aux secureEP insecureEP groups st l :
  WAF.updateRulesWithWAF secureEP insecureEP groups st = Some l →
  ∀ p, p ∉ touchedRules secureEP insecureEP (mjoin (snd <$> groups)) →
    ruleStore (WAF.pass l) !! p = ruleStore st !! p.
Proof.
  unfold WAF.updateRulesWithWAF. intros Hl p Hp.
  by rewrite (forEach_handleGroup_outside _ _ _ _ _ Hl p Hp).
Qed.

Lemma scanned_elem isWAF ep n p :
  p ∈ scanned isWAF ep n → isWAF = true ∧ (p ∈ policyRules ep ∨ p = n).
Proof.
  unfold scanned. destruct isWAF, ep as [ep|]; simpl; try by rewrite elem_of_nil.
  rewrite elem_of_app, list_elem_of_singleton. tauto.
Qed.

Lemma disabledIn_outside rs p rule : p ∉ rs → disabledIn rs p rule = rule.
Proof. intros Hp. unfold disabledIn. by rewrite decide_False. Qed.

Lemma withTrailingRule_lookup_ne name isWAF ep n app key :
  key ≠ name → withTrailingRule name isWAF ep n app !! key = app !! key.
Proof.
  intros Hne. unfold withTrailingRule.
  destruct isWAF, ep; by rewrite ?lookup_insert_ne.
Qed.

Lemma withTrailingRule_untouched name ep n app :
  withTrailingRule name false ep n app = app.
Proof. done. Qed.

(** The WAF injection stage changes nothing outside the policies it
    touches: on a tree whose rule pointers are in the store it returns, every
    object of the shared application that is not a touched policy is the
    same object after the stage (Services, other objects, and a policy that
    no record exposes), and every rule that is not a rule of a touched policy
    is the same rule. *)
Theorem waf_stage_changes_touched_policies_only (am : AS3Manager) (st : PassState) :
  rulesAllocated st →
  let secureEP := WAF.lookupPolicy WAF.secureName (sharedApp st) in
  let insecureEP := WAF.lookupPolicy WAF.insecureName (sharedApp st) in
  ∃ st', WAF.processF5ResourcesForAS3 am st = Some st' ∧
    (∀ key,
       (key = WAF.secureName →
        touchedBy secureEP exposesSecure (exposureRecords am) = false) →
       (key = WAF.insecureName →
        touchedBy insecureEP exposesInsecure (exposureRecords am) = false) →
       sharedApp st' !! key = sharedApp st !! key) ∧
    (∀ p rule,
       ruleStore st !! p = Some rule →
       p ∉ touchedRules secureEP insecureEP (exposureRecords am) →
       ruleStore st' !! p = Some rule).
Proof.
  intros Hrs secureEP insecureEP.
  destruct (processF5ResourcesForAS3_spec am st Hrs)
    as (l & Hl & Happ & Hlen & HS & HI & Hst').
  fold secureEP insecureEP in Hl, HS, HI, Hst'.
  eexists. split; [exact Hst'|]. simpl. split.
  - intros key HkS HkI.
    destruct (decide (key = WAF.insecureName)) as [->|HneI].
    { rewrite HI, HkI by done. rewrite withTrailingRule_untouched.
      by rewrite withTrailingRule_lookup_ne by (apply not_eq_sym, names_differ). }
    rewrite withTrailingRule_lookup_ne by done.
    destruct (decide (key = WAF.secureName)) as [->|HneS].
    { by rewrite HS, HkS by done. }
    by rewrite withTrailingRule_lookup_ne by done.
  - intros p rule Hp Hout.
    assert (p < length (ruleStore (WAF.pass l))) as Hlt
      by (rewrite Hlen; by eapply lookup_lt_Some).
    rewrite !list_lookup_imap. unfold storeBeforeScan.
    rewrite lookup_app_l by done.
    rewrite (updateRulesWithWAF_outside_aux secureEP insecureEP (IntF5Res am) st l Hl p Hout).
    rewrite Hp. simpl. f_equal.
    rewrite touchedRules_elem in Hout.
    rewrite !disabledIn_outside; [done|..];
      (intros [Hflag [Hin| ->]]%scanned_elem; [|lia]);
      apply Hout; rewrite <-?HS, <-?HI; tauto.
Qed.

End waf_frame.

Lemma waf_stage_changes_touched_policies_only_witness :
  let am := Examples.exposures [("ns", [Examples.exposure "r1" HTTPS])] in
  let st := Examples.twoPolicies in
  let secureEP := WAF.lookupPolicy WAF.secureName (sharedApp st) in
  let insecureEP := WAF.lookupPolicy WAF.insecureName (sharedApp st) in
  Spec.rulesAllocated st ∧
  ∃ st', WAF.processF5ResourcesForAS3 am st = Some st' ∧
    (∀ key,
       (key = WAF.secureName →
        Spec.touchedBy secureEP Spec.exposesSecure (Spec.exposureRecords am) = false) →
       (key = WAF.insecureName →
        Spec.touchedBy insecureEP Spec.exposesInsecure (Spec.exposureRecords am)
        = false) →
       sharedApp st' !! key = sharedApp st !! key) ∧
    (∀ p rule,
       ruleStore st !! p = Some rule →
       p ∉ Behaviour.touchedRules secureEP insecureEP (Spec.exposureRecords am) →
       ruleStore st' !! p = Some rule).
Proof.
  intros am st secureEP insecureEP.
  assert (Spec.rulesAllocated st) as Hrs by solve_allocated.
  split; [exact Hrs|].
  exact (waf_stage_changes_touched_policies_only am st Hrs).
Defined.

(** ** WAF injection: edge cases and repeated runs *)
Section waf_edges.
Import Spec Behaviour.

Lemma handleRecord_without_policies l entry :
  WAF.handleRecord None None l entry = Some l.
Proof. destruct entry as [rec [[]]]; done. Qed.

Lemma forEach_without_policies {A} (body : WAF.LoopState → A → option WAF.LoopState)
    items :
  (∀ l x, body l x = Some l) → ∀ l, WAF.forEach body l items = Some l.
Proof.
  intros Hbody. induction items as [|x items IH]; intros l;
    cbn [WAF.forEach]; [done|].
  rewrite Hbody. simpl. apply IH.
Qed.

(** Without the two conventional policies in the tree, the WAF injection
    stage is a no-op whatever the exposure records are: it returns, and the
    shared application, the rules and the diagnostics are as before (the
    synthetic rule is allocated, and no policy refers to it). *)
Theorem waf_stage_without_policies (am : AS3Manager) (st : PassState) :
  WAF.lookupPolicy WAF.secureName (sharedApp st) = None →
  WAF.lookupPolicy WAF.insecureName (sharedApp st) = None →
  WAF.processF5ResourcesForAS3 am st =
  Some {| sharedApp := sharedApp st;
          ruleStore := ruleStore st ++ [WAF.wafDisableRule];
          diagnostics := diagnostics st |}.
Proof.
  intros HS HI. unfold WAF.processF5ResourcesForAS3, WAF.updateRulesWithWAF.
  rewrite HS, HI.
  rewrite forEach_without_policies; [done|].
  intros l [ns records]. unfold WAF.handleGroup. simpl.
  apply forEach_without_policies, handleRecord_without_policies.
Qed.

Lemma waf_stage_without_policies_witness :
  let am := Examples.exposures [("ns", [Examples.exposure "r1" HTTPANDS])] in
  let st := Examples.oneService Examples.httpService in
  WAF.lookupPolicy WAF.secureName (sharedApp st) = None ∧
  WAF.lookupPolicy WAF.insecureName (sharedApp st) = None ∧
  WAF.processF5ResourcesForAS3 am st =
  Some {| sharedApp := sharedApp st;
          ruleStore := ruleStore st ++ [WAF.wafDisableRule];
          diagnostics := diagnostics st |}.
Proof.
  intros am st. split_and!; [reflexivity|reflexivity|].
  exact (waf_stage_without_policies am st eq_refl eq_refl).
Defined.

Lemma disabledIn_appends rs p rule :
  ∃ added,
    disabledIn rs p rule =
      {| Name := Name rule; Actions := Actions rule ++ added |} ∧
    Forall (λ action, Type_ action = "waf") added.
Proof.
  unfold disabledIn. destruct rule as [name actions]. simpl.
  destruct (decide (p ∈ rs)); [destruct (WAF.isWAFRule _)|].
  - exists []. by rewrite app_nil_r.
  - exists [WAF.wafDisableAction]. split; [done|]. by repeat constructor.
  - exists []. by rewrite app_nil_r.
Qed.

(** The WAF injection stage only ever appends WAF actions: on a tree whose
    rule pointers are in the store it returns; the store has one more rule,
    the synthetic one; and every rule of the store before the stage is
    behind the same pointer after it, under the same name, with the actions
    it had, in the order it had them, followed by actions of type "waf"
    only. *)
Theorem waf_stage_only_appends_waf_actions (am : AS3Manager) (st : PassState) :
  rulesAllocated st →
  ∃ st', WAF.processF5ResourcesForAS3 am st = Some st' ∧
    length (ruleStore st') = S (length (ruleStore st)) ∧
    ruleStore st' !! length (ruleStore st) = Some WAF.wafDisableRule ∧
    ∀ p rule, ruleStore st !! p = Some rule →
      ∃ added,
        ruleStore st' !! p =
          Some {| Name := Name rule; Actions := Actions rule ++ added |} ∧
        Forall (λ action, Type_ action = "waf") added.
Proof.
  intros Hrs.
  destruct (processF5ResourcesForAS3_spec am st Hrs)
    as (l & Hl & Happ & Hlen & HS & HI & Hst').
  eexists. split; [exact Hst'|]. simpl. split_and!.
  - rewrite !length_imap. unfold storeBeforeScan. rewrite length_app. simpl. lia.
  - rewrite <-Hlen. apply scans_keep_trailing.
  - intros p rule Hp.
    destruct (updateRulesWithWAF_enables _ _ _ _ _ Hl p rule Hp) as [k Hk].
    rewrite !list_lookup_imap. unfold storeBeforeScan.
    rewrite lookup_app_l by (by eapply lookup_lt_Some). rewrite Hk. simpl.
    set (rule1 := {| Name := Name rule;
                     Actions := Actions rule ++ replicate k WAF.wafEnableAction |}).
    destruct (disabledIn_appends
                (scanned (WAF.isSecureWAF l)
                   (WAF.lookupPolicy WAF.secureName (sharedApp st))
                   (length (ruleStore (WAF.pass l)))) p rule1)
      as (added1 & -> & Hwaf1).
    destruct (disabledIn_appends
                (scanned (WAF.isInsecureWAF l)
                   (WAF.lookupPolicy WAF.insecureName (sharedApp st))
                   (length (ruleStore (WAF.pass l)))) p
                {| Name := Name rule1; Actions := Actions rule1 ++ added1 |})
      as (added2 & -> & Hwaf2).
    exists (replicate k WAF.wafEnableAction ++ added1 ++ added2). simpl. split.
    + by rewrite <-!(assoc_L (++)).
    + rewrite !Forall_app. split_and!; try done.
      by apply Forall_replicate.
Qed.

Lemma waf_stage_only_appends_waf_actions_witness :
  let am := Examples.exposures [("ns", [Examples.exposure "r1" HTTPANDS])] in
  let st := Examples.twoPolicies in
  rulesAllocated st ∧
  ∃ st', WAF.processF5ResourcesForAS3 am st = Some st' ∧
    length (ruleStore st') = S (length (ruleStore st)) ∧
    ruleStore st' !! length (ruleStore st) = Some WAF.wafDisableRule ∧
    ∀ p rule, ruleStore st !! p = Some rule →
      ∃ added,
        ruleStore st' !! p =
          Some {| Name := Name rule; Actions := Actions rule ++ added |} ∧
        Forall (λ action, Type_ action = "waf") added.
Proof.
  intros am st.
  assert (rulesAllocated st) as Hrs by solve_allocated.
  split; [exact Hrs|]. exact (waf_stage_only_appends_waf_actions am st Hrs).
Defined.

Lemma lookupPolicy_after name isWAF ep n app :
  ep = WAF.lookupPolicy name app →
  WAF.lookupPolicy name (withTrailingRule name isWAF ep n app) =
  match isWAF, ep with
  | true, Some ep => Some {| Rules := Rules ep ++ [n] |}
  | _, _ => ep
  end.
Proof.
  intros ->. unfold withTrailingRule.
  destruct isWAF, (WAF.lookupPolicy name app) eqn:Hep; try done.
  apply lookupPolicy_insert.
Qed.

Lemma lookupPolicy_withTrailingRule_ne name name' isWAF ep n app :
  name' ≠ name →
  WAF.lookupPolicy name (withTrailingRule name' isWAF ep n app) =
  WAF.lookupPolicy name app.
Proof.
  intros Hne. unfold WAF.lookupPolicy. by rewrite withTrailingRule_lookup_ne.
Qed.

Lemma touchedBy_same_presence ep ep' exposes records :
  (is_Some ep ↔ is_Some ep') →
  touchedBy ep exposes records = touchedBy ep' exposes records.
Proof.
  intros Hiff. destruct ep, ep'; simpl; try done.
  - destruct Hiff as [Hiff _]. by destruct Hiff.
  - destruct Hiff as [_ Hiff]. by destruct Hiff.
Qed.

(** The stage is not idempotent: run a second time with the same exposure
    records on the tree it produced, it appends the synthetic rule once more
    to each policy it touches, so a touched policy ends with two trailing
    rules, behind the two pointers allocated by the two runs. *)
Theorem waf_stage_twice_appends_twice (am : AS3Manager) (st : PassState) :
  rulesAllocated st →
  let n := length (ruleStore st) in
  let secureEP := WAF.lookupPolicy WAF.secureName (sharedApp st) in
  let insecureEP := WAF.lookupPolicy WAF.insecureName (sharedApp st) in
  ∃ st1 st2,
    WAF.processF5ResourcesForAS3 am st = Some st1 ∧
    WAF.processF5ResourcesForAS3 am st1 = Some st2 ∧
    length (ruleStore st2) = S (S n) ∧
    ruleStore st2 !! S n = Some WAF.wafDisableRule ∧
    (touchedBy secureEP exposesSecure (exposureRecords am) = true →
     ∃ ep, secureEP = Some ep ∧
       WAF.lookupPolicy WAF.secureName (sharedApp st1)
         = Some {| Rules := Rules ep ++ [n] |} ∧
       WAF.lookupPolicy WAF.secureName (sharedApp st2)
         = Some {| Rules := Rules ep ++ [n; S n] |}) ∧
    (touchedBy insecureEP exposesInsecure (exposureRecords am) = true →
     ∃ ep, insecureEP = Some ep ∧
       WAF.lookupPolicy WAF.insecureName (sharedApp st1)
         = Some {| Rules := Rules ep ++ [n] |} ∧
       WAF.lookupPolicy WAF.insecureName (sharedApp st2)
         = Some {| Rules := Rules ep ++ [n; S n] |}).
Proof.
  intros Hrs n secureEP insecureEP.
  destruct (processF5ResourcesForAS3_spec am st Hrs)
    as (l1 & Hl1 & Happ1 & Hlen1 & HS1 & HI1 & Hst1).
  fold secureEP insecureEP in Hl1, HS1, HI1, Hst1. fold n in Hlen1.
  cbv zeta in Hst1. rewrite Hlen1 in Hst1.
  match type of Hst1 with _ = Some ?x => set (st1 := x) in Hst1 end.
  assert (WAF.lookupPolicy WAF.secureName (sharedApp st1) =
          match WAF.isSecureWAF l1, secureEP with
          | true, Some ep => Some {| Rules := Rules ep ++ [n] |}
          | _, _ => secureEP
          end) as Hsec1.
  { unfold st1. simpl.
    rewrite lookupPolicy_withTrailingRule_ne by (apply not_eq_sym, names_differ).
    by apply lookupPolicy_after. }
  assert (WAF.lookupPolicy WAF.insecureName (sharedApp st1) =
          match WAF.isInsecureWAF l1, insecureEP with
          | true, Some ep => Some {| Rules := Rules ep ++ [n] |}
          | _, _ => insecureEP
          end) as Hins1.
  { unfold st1. simpl. apply lookupPolicy_after.
    by rewrite lookupPolicy_withTrailingRule_ne by apply names_differ. }
  assert (length (ruleStore st1) = S n) as Hlen_st1.
  { unfold st1. simpl. rewrite !length_imap. unfold storeBeforeScan.
    rewrite length_app, Hlen1. simpl. lia. }
  clearbody st1.
  apply Forall_app in Hrs as [HrsS HrsI]. fold secureEP in HrsS.
  fold insecureEP in HrsI. fold n in HrsS, HrsI.
  assert (rulesAllocated st1) as Hrs1.
  { unfold rulesAllocated. rewrite Hsec1, Hins1, Hlen_st1. apply Forall_app. split.
    - destruct (WAF.isSecureWAF l1), secureEP as [ep|]; simpl in *;
        rewrite ?Forall_app, ?Forall_singleton;
        repeat split; try lia; try done;
        (eapply Forall_impl; [done|]; simpl; lia).
    - destruct (WAF.isInsecureWAF l1), insecureEP as [ep|]; simpl in *;
        rewrite ?Forall_app, ?Forall_singleton;
        repeat split; try lia; try done;
        (eapply Forall_impl; [done|]; simpl; lia). }
  destruct (processF5ResourcesForAS3_spec am st1 Hrs1)
    as (l2 & Hl2 & Happ2 & Hlen2 & HS2 & HI2 & Hst2).
  cbv zeta in Hst2. rewrite Hlen2, Hlen_st1 in Hst2.
  assert (WAF.isSecureWAF l2 = WAF.isSecureWAF l1) as HfS.
  { rewrite HS2, HS1. apply touchedBy_same_presence. rewrite Hsec1.
    destruct (WAF.isSecureWAF l1), secureEP; split; intros [? ?]; by eauto. }
  assert (WAF.isInsecureWAF l2 = WAF.isInsecureWAF l1) as HfI.
  { rewrite HI2, HI1. apply touchedBy_same_presence. rewrite Hins1.
    destruct (WAF.isInsecureWAF l1), insecureEP; split; intros [? ?]; by eauto. }
  eexists st1, _. split_and!; [exact Hst1|exact Hst2|..]; simpl.
  - rewrite !length_imap. unfold storeBeforeScan. rewrite length_app. simpl.
    lia.
  - rewrite <-Hlen_st1, <-Hlen2. apply scans_keep_trailing.
  - intros Htouched. rewrite <-HS1 in Htouched.
    destruct secureEP as [ep|] eqn:Hep;
      [|by rewrite HS1 in Htouched].
    exists ep. rewrite Htouched in Hsec1. split_and!; [done|done|].
    rewrite lookupPolicy_withTrailingRule_ne by (apply not_eq_sym, names_differ).
    rewrite lookupPolicy_after by done. rewrite HfS, Htouched, Hsec1.
    simpl. by rewrite <-(assoc_L (++)).
  - intros Htouched. rewrite <-HI1 in Htouched.
    destruct insecureEP as [ep|] eqn:Hep;
      [|by rewrite HI1 in Htouched].
    exists ep. rewrite Htouched in Hins1. split_and!; [done|done|].
    rewrite lookupPolicy_after
      by (by rewrite lookupPolicy_withTrailingRule_ne by apply names_differ).
    rewrite HfI, Htouched, Hins1. simpl. by rewrite <-(assoc_L (++)).
Qed.

End waf_edges.

Lemma waf_stage_twice_appends_twice_witness :
  let am := Examples.exposures [("ns", [Examples.exposure "r1" HTTPS])] in
  let st := Examples.twoPolicies in
  let n := length (ruleStore st) in
  let secureEP := WAF.lookupPolicy WAF.secureName (sharedApp st) in
  let insecureEP := WAF.lookupPolicy WAF.insecureName (sharedApp st) in
  Spec.rulesAllocated st ∧
  ∃ st1 st2,
    WAF.processF5ResourcesForAS3 am st = Some st1 ∧
    WAF.processF5ResourcesForAS3 am st1 = Some st2 ∧
    length (ruleStore st2) = S (S n) ∧
    ruleStore st2 !! S n = Some WAF.wafDisableRule ∧
    (Spec.touchedBy secureEP Spec.exposesSecure (Spec.exposureRecords am) = true →
     ∃ ep, secureEP = Some ep ∧
       WAF.lookupPolicy WAF.secureName (sharedApp st1)
         = Some {| Rules := Rules ep ++ [n] |} ∧
       WAF.lookupPolicy WAF.secureName (sharedApp st2)
         = Some {| Rules := Rules ep ++ [n; S n] |}) ∧
    (Spec.touchedBy insecureEP Spec.exposesInsecure (Spec.exposureRecords am) = true →
     ∃ ep, insecureEP = Some ep ∧
       WAF.lookupPolicy WAF.insecureName (sharedApp st1)
         = Some {| Rules := Rules ep ++ [n] |} ∧
       WAF.lookupPolicy WAF.insecureName (sharedApp st2)
         = Some {| Rules := Rules ep ++ [n; S n] |}).
Proof.
  intros am st n secureEP insecureEP.
  assert (Spec.rulesAllocated st) as Hrs by solve_allocated.
  split; [exact Hrs|]. exact (waf_stage_twice_appends_twice am st Hrs).
Defined.

Lemma override_kept_on_named_partition_witness :
  let env := Examples.plainEnv "k8s" in
  let am := Examples.frontends [] in
  let routeCfg :=
    {| Assembly.adc := Assembly.initDefault "";
       Assembly.overrideConfigmap := {| Assembly.Data := "{}" |} |} in
  let adc :=
    {| Assembly.partition := "k8s";
       Assembly.declared :=
         {| sharedApp := ∅; ruleStore := [WAF.wafDisableRule]; diagnostics := [] |};
       Assembly.controls := None |} in
  Assembly.generateAS3ResourceDeclaration env am = Some adc ∧
  DEFAULT_PARTITION env ≠ "" ∧
  ∃ routeCfg',
    Assembly.prepareAS3ResourceConfig env am routeCfg = Some routeCfg' ∧
    Assembly.overrideConfigmap routeCfg' = Assembly.overrideConfigmap routeCfg.
Proof.
  intros env am routeCfg adc.
  assert (DEFAULT_PARTITION env ≠ "") as Hnamed by discriminate.
  split_and!; [reflexivity|exact Hnamed|].
  exact (override_kept_on_named_partition env am routeCfg adc eq_refl Hnamed).
Defined.

(** * Generated deep copies *)
Section deep_copy.
Import V1.















End deep_copy.
